(** * The Xeggex connector of hummingbot: order-book data source

    A shallow embedding of
    - [xeggex_order_book.py]   (the message normalizers),
    - [xeggex_utils.py]        (the retrying REST client),
    - [xeggex_api_order_book_data_source.py] (symbol registry, snapshot poller)
    and the properties of these that the specification states. *)

From Stdlib Require Import List String Ascii DecimalString ZArith QArith Qpower.
From Stdlib Require Import Bool Lia.
From Equations Require Import Equations.
Import ListNotations.

Set Warnings "-register-all".

Open Scope string_scope.
Open Scope Z_scope.

(** ** Python values

    The values that [response.json()] builds and that the connector passes
    around.  A float is carried as the rational it denotes: none of the code
    below inspects one. *)

Inductive pyval : Type :=
| PNone
| PBool (b : bool)
| PInt (z : Z)
| PFloat (q : Q)
| PStr (s : string)
| PList (l : list pyval)
| PDict (d : list (string * pyval)).

(** ** Python dicts with string keys

    A dict keeps its items in insertion order and holds a key once.  Items are
    an association list; [Dict.wf] states the uniqueness of keys, which every
    operation preserves. *)

Module Dict.
Section WithValues.
Context {V : Type}.

Definition t : Type := list (string * V).

Definition empty : t := [].

(** [d.get(k)] / [d[k]] : the value bound to [k], if any. *)
Fixpoint get (k : string) (d : t) : option V :=
  match d with
  | [] => None
  | (k', v) :: d' => if String.eqb k' k then Some v else get k d'
  end.

(** [d[k] = v] : an existing key keeps its place, a new one goes last. *)
Fixpoint set (k : string) (v : V) (d : t) : t :=
  match d with
  | [] => [(k, v)]
  | (k', v') :: d' =>
      if String.eqb k' k then (k', v) :: d' else (k', v') :: set k v d'
  end.

(** [d.update(other)] : assign the items of [other] one after the other. *)
Definition update (d other : t) : t :=
  fold_left (fun acc kv => set (fst kv) (snd kv) acc) other d.

Definition keys (d : t) : list string := map fst d.
Definition values (d : t) : list V := map snd d.

(** [k in d] *)
Definition mem (k : string) (d : t) : bool :=
  match get k d with Some _ => true | None => false end.

(** [bool(d)] : a dict is true when it is not empty. *)
Definition truthy (d : t) : bool :=
  match d with [] => false | _ :: _ => true end.

Definition wf (d : t) : Prop := NoDup (keys d).

(** [{key(x): val(x) for x in xs}] *)
Definition of_items (items : list (string * V)) : t := update empty items.

End WithValues.
Arguments t : clear implicits.
End Dict.

(** [d.get(k)] on a dict of Python values: [None] when the key is missing. *)
Definition py_get (k : string) (d : Dict.t pyval) : pyval :=
  match Dict.get k d with
  | Some v => v
  | None => PNone
  end.

(** ** xeggex_order_book.py : the message normalizers *)

Inductive OrderBookMessageType : Type := SNAPSHOT | DIFF | TRADE.

(** Modelled from the spec: [XeggexOrderBookMessage] is declared in
    [xeggex_order_book_message.py], which is not among the files verified here.
    Following the spec's "Order Book Update" it is a record of the kind of
    update, its payload and its timestamp, built without further checks. *)
Record XeggexOrderBookMessage : Type := {
  message_type : OrderBookMessageType;
  content : Dict.t pyval;
  timestamp : pyval
}.

(** [if metadata: msg.update(metadata)] with [metadata: Optional[Dict]]. *)
Definition merge_metadata (msg : Dict.t pyval) (metadata : option (Dict.t pyval))
  : Dict.t pyval :=
  match metadata with
  | Some md => if Dict.truthy md then Dict.update msg md else msg
  | None => msg
  end.

Definition snapshot_message_from_exchange
  (msg : Dict.t pyval) (timestamp : pyval) (metadata : option (Dict.t pyval))
  : XeggexOrderBookMessage :=
  let msg := merge_metadata msg metadata in
  {| message_type := SNAPSHOT; content := msg; timestamp := timestamp |}.

Definition diff_message_from_exchange
  (msg : Dict.t pyval) (timestamp : pyval) (metadata : option (Dict.t pyval))
  : XeggexOrderBookMessage :=
  let msg := merge_metadata msg metadata in
  {| message_type := DIFF; content := msg; timestamp := timestamp |}.

(** The four canonical fields, read from the message before it is updated. *)
Definition canonical_trade_fields (msg : Dict.t pyval) : Dict.t pyval :=
  [ ("exchange_order_id", py_get "id" msg);
    ("trade_type", py_get "side" msg);
    ("price", py_get "price" msg);
    ("amount", py_get "quantity" msg) ].

Definition trade_message_from_exchange
  (msg : Dict.t pyval) (timestamp : pyval) (metadata : option (Dict.t pyval))
  : XeggexOrderBookMessage :=
  let msg := merge_metadata msg metadata in
  let msg := Dict.update msg (canonical_trade_fields msg) in
  {| message_type := TRADE; content := msg; timestamp := timestamp |}.

(** What a metadata argument binds to a key ([None]: no metadata, or the key
    is not in it). *)
Definition metadata_get (k : string) (metadata : option (Dict.t pyval))
  : option pyval :=
  match metadata with
  | Some md => Dict.get k md
  | None => None
  end.


(** The spec's "raw payload merged with the metadata, metadata keys taking
    precedence", as what a key is bound to. *)
Definition merged_lookup (raw md : Dict.t pyval) (k : string) : option pyval :=
  match Dict.get k md with
  | Some v => Some v
  | None => Dict.get k raw
  end.

(** The field of the message that a canonical trade field is read from. *)
Definition canonical_source (k : string) : option string :=
  if String.eqb k "exchange_order_id" then Some "id"
  else if String.eqb k "trade_type" then Some "side"
  else if String.eqb k "price" then Some "price"
  else if String.eqb k "amount" then Some "quantity"
  else None.

(** [o] if it is a value, else [None] : what [dict.get] makes of a lookup. *)
Definition or_None (o : option pyval) : pyval :=
  match o with
  | Some v => v
  | None => PNone
  end.

Definition normalizer : Type :=
  Dict.t pyval -> pyval -> option (Dict.t pyval) -> XeggexOrderBookMessage.

(** A normalizer whose content is the raw payload merged with the metadata,
    whatever non-empty metadata dict it is given. *)
Definition merges_metadata (f : normalizer) : Prop :=
  forall raw ts md,
    Dict.wf md -> Dict.truthy md = true ->
    forall k, Dict.get k (content (f raw ts (Some md))) = merged_lookup raw md k.

(** ** Exceptions, results and the world the connector runs in *)

(** The exceptions that the modelled code raises or lets through.
    [XeggexAPIError] carries the two entries of its [error_payload],
    [{"error": ..., "status": ...}].  As in Python 3.8 and later,
    [CancelledError] is not an [Exception]: [except Exception] lets it pass. *)
Inductive exn : Type :=
| CancelledError
| TypeError
| AttributeError
| KeyError (key : string)
| ValueError (msg : string)
| IOError (msg : string)
| XeggexAPIError (error : pyval) (status : option Z).

(** [isinstance(e, Exception)] *)
Definition is_Exception (e : exn) : bool :=
  match e with
  | CancelledError => false
  | _ => true
  end.

Inductive result (A : Type) : Type :=
| Ok (a : A)
| Raise (e : exn).
Arguments Ok {A} a.
Arguments Raise {A} e.

(** Modelled from the spec: [xeggex_constants.py] is not among the files
    verified here; the constants that the modelled code reads are parameters. *)
Record ConstantsT : Type := {
  REST_URL : string;
  API_MAX_RETRIES : Z;
  API_CALL_TIMEOUT : Z;
  ENDPOINT_SYMBOL : string;
  ENDPOINT_ORDER_BOOK : string;
  EXCHANGE_NAME : string
}.

Record request : Type := {
  req_method : string;
  req_url : string;
  req_params : option (Dict.t pyval);
  req_timeout : Z
}.

(** What happens to the body of a response: [response.json()] returns a
    value, or raises; in the latter case [response.read()] gives bytes, of
    which [raw] is the [str()], or raises as well. *)
Inductive body_outcome : Type :=
| JsonOk (v : pyval)
| JsonError (raw : option string).

(** What happens to one request: the task is cancelled while it waits, the
    connection fails ([async with] raises an [Exception]), or a response
    arrives with its status and reason ([Optional[str]]). *)
Inductive http_outcome : Type :=
| HttpCancelled
| HttpConnectError
| HttpResponse (status : Z) (reason : pyval) (body : body_outcome).

(** What lies outside the program: the constants, the exchange (the outcome
    of the n-th request sent), the random source after [random.seed()] (the
    n-th draw is taken from [entropy n]) and [str()] on values other than
    strings, which f-strings apply. *)
Record Env : Type := {
  Constants : ConstantsT;
  network : nat -> request -> http_outcome;
  entropy : nat -> Z;
  py_str : pyval -> string
}.

Inductive event : Type :=
| EvRequest (r : request)
| EvClose
| EvSleep (seconds : Q)
| EvPrint
| EvLog (level : string).

(** The mutable state: the class attribute [_trading_pair_symbol_map], the
    output queue handed to the listeners, and what has been done so far
    (newest event last). *)
Record World : Type := {
  symbol_map : Dict.t string;
  output : list XeggexOrderBookMessage;
  requests : nat;
  draws : nat;
  trace : list event
}.

Definition initial_world : World :=
  {| symbol_map := Dict.empty; output := []; requests := 0; draws := 0;
     trace := [] |}.

(** Computations that read and change the world and may raise. *)
Definition M (A : Type) : Type := World -> result A * World.

Definition ret {A} (a : A) : M A := fun w => (Ok a, w).

Definition bind {A B} (m : M A) (k : A -> M B) : M B :=
  fun w =>
    match m w with
    | (Ok a, w') => k a w'
    | (Raise e, w') => (Raise e, w')
    end.

Definition raise {A} (e : exn) : M A := fun w => (Raise e, w).

Definition lift {A} (r : result A) : M A := fun w => (r, w).

(** [try: m  except CancelledError: raise  except Exception: handler] *)
Definition try_except {A} (m : M A) (handler : exn -> M A) : M A :=
  fun w =>
    match m w with
    | (Ok a, w') => (Ok a, w')
    | (Raise e, w') =>
        if is_Exception e then handler e w' else (Raise e, w')
    end.

Declare Scope py_scope.
Delimit Scope py_scope with py.
Notation "x <- m ;; k" := (bind m (fun x => k))
  (at level 61, m at next level, right associativity) : py_scope.
Notation "m ;; k" := (bind m (fun _ => k))
  (at level 61, right associativity) : py_scope.
Open Scope py_scope.

Definition emit (ev : event) : M unit :=
  fun w =>
    (Ok tt,
     {| symbol_map := symbol_map w; output := output w; requests := requests w;
        draws := draws w; trace := trace w ++ [ev] |}).

(** [await asyncio.sleep(seconds)].  Cancellation is modelled where the network
    is awaited ([HttpCancelled]); a sleep here always runs to its end. *)
Definition sleep (seconds : Q) : M unit := emit (EvSleep seconds).

(** ** xeggex_utils.py : the retrying REST client *)

(** [random.randint(a, b)] : some integer of [a..b], here the one that the
    entropy picks. *)
Definition randint (a b : Z) (e : Z) : Z := a + e mod (b - a + 1).

(** [retry_sleep_time], given what the freshly seeded generator draws from.
    Python computes in floats; the model computes the same expression in
    exact rationals. *)
Definition randSleep (e : Z) : Q := 1 + inject_Z (randint 1 10 e) / 100.

Definition retry_sleep_time_of (e : Z) (try_count : Z) : Q :=
  2 + randSleep e * (1 + inject_Z try_count ^ try_count).

Definition retry_sleep_time (E : Env) (try_count : Z) : M Q :=
  fun w =>
    (Ok (retry_sleep_time_of (entropy E (draws w)) try_count),
     {| symbol_map := symbol_map w; output := output w; requests := requests w;
        draws := S (draws w); trace := trace w |}).

(** [needle in hay] for two strings. *)
Fixpoint str_contains (needle hay : string) : bool :=
  if String.prefix needle hay then true
  else match hay with
       | EmptyString => false
       | String _ hay' => str_contains needle hay'
       end.

(** [s in v] for a string [s]: a key of a dict, a substring of a string, an
    element of a list; anything else is not iterable. *)
Definition py_contains (s : string) (v : pyval) : result bool :=
  match v with
  | PDict d => Ok (Dict.mem s d)
  | PStr hay => Ok (str_contains s hay)
  | PList l =>
      Ok (existsb (fun x => match x with
                            | PStr s' => String.eqb s' s
                            | _ => false
                            end) l)
  | _ => Raise TypeError
  end.

Definition is_None (v : pyval) : bool :=
  match v with PNone => true | _ => false end.

Definition truncated (s : string) : string :=
  if (100 <? String.length s)%nat
  then String.substring 0 100 s ++ " ... (truncated)"
  else s.

(** [status in [200, 201]] *)
Definition status_ok (status : Z) : bool := (status =? 200) || (status =? 201).

(** The locals of [aiohttp_response_with_errors], which it returns. *)
Record response_info : Type := {
  http_status : option Z;
  parsed_response : pyval;
  request_errors : bool
}.

(** [TempFailure]: [or] and [and] evaluate their right operand only when
    needed, and the membership test may raise. *)
Definition TempFailure (status : Z) (parsed : pyval) : result bool :=
  if is_None parsed then Ok true
  else if negb (status_ok status) then
         match py_contains "error" parsed with
         | Ok b => Ok (negb b)
         | Raise e => Raise e
         end
       else Ok false.

Definition aiohttp_response_with_errors (o : http_outcome)
  : result response_info :=
  match o with
  | HttpCancelled => Raise CancelledError
  | HttpConnectError =>
      Ok {| http_status := None; parsed_response := PNone;
            request_errors := true |}
  | HttpResponse status reason body =>
      let '(parsed, errors) :=
        match body with
        | JsonOk v => (v, false)
        | JsonError (Some raw) => (PStr (truncated raw), true)
        | JsonError None => (PNone, true)
        end in
      match TempFailure status parsed with
      | Ok true =>
          Ok {| http_status := Some status;
                parsed_response := if is_None parsed then reason else parsed;
                request_errors := true |}
      | Ok false =>
          Ok {| http_status := Some status; parsed_response := parsed;
                request_errors := errors |}
      | Raise e =>
          if is_Exception e
          then Ok {| http_status := Some status; parsed_response := parsed;
                     request_errors := true |}
          else Raise e
      end
  end.

(** The spec's account of a response that counts as failed: the transport
    failed, or the body did not parse as structured data (the decoder raised
    or had nothing but [null] to give), or the status is outside 200/201 and
    the parsed body has no ["error"] field. *)
Definition has_error_field (v : pyval) : bool :=
  match v with
  | PDict d => Dict.mem "error" d
  | _ => false
  end.

Definition failed_by_spec (o : http_outcome) : bool :=
  match o with
  | HttpCancelled => false
  | HttpConnectError => true
  | HttpResponse _ _ (JsonError _) => true
  | HttpResponse status _ (JsonOk v) =>
      is_None v || (negb (status_ok status) && negb (has_error_field v))
  end.

(** The body of the response is a bare JSON string or array. *)
Definition bare_text_or_array (o : http_outcome) : bool :=
  match o with
  | HttpResponse _ _ (JsonOk (PStr _)) => true
  | HttpResponse _ _ (JsonOk (PList _)) => true
  | _ => false
  end.

(** The test of [api_call_with_retries] on what an attempt gave. *)
Definition attempt_failed (info : response_info) : bool :=
  request_errors info || is_None (parsed_response info).

(** From the [from]-th request on, every request ends in a response (or a
    connection error) that the client counts as failed. *)
Definition always_fails (E : Env) (from : nat) : Prop :=
  forall n r,
    (from <= n)%nat ->
    exists info,
      aiohttp_response_with_errors (network E n r) = Ok info /\
      attempt_failed info = true.

Definition upper_ascii (c : ascii) : ascii :=
  let n := nat_of_ascii c in
  if ((97 <=? n) && (n <=? 122))%nat then ascii_of_nat (n - 32) else c.

(** [s.upper()], on ASCII letters. *)
Fixpoint upper (s : string) : string :=
  match s with
  | EmptyString => EmptyString
  | String c s' => String (upper_ascii c) (upper s')
  end.

(** [http_client.request(...)] handed to [aiohttp_response_with_errors]: the
    request goes out and the exchange's outcome for it is classified. *)
Definition send_request (E : Env) (r : request) : M response_info :=
  fun w =>
    (aiohttp_response_with_errors (network E (requests w) r),
     {| symbol_map := symbol_map w; output := output w;
        requests := S (requests w); draws := draws w;
        trace := trace w ++ [EvRequest r] |}).

(** The request that [api_call_with_retries] builds. *)
Definition build_request (E : Env) (method endpoint : string)
  (params : option (Dict.t pyval)) : request :=
  let url := REST_URL (Constants E) ++ "/" ++ endpoint in
  {| req_method := upper method; req_url := url; req_params := params;
     req_timeout := API_CALL_TIMEOUT (Constants E) |}.

(** One attempt of [api_call_with_retries]: the lines before its [if]. A
    session of the call's own ([shared_client is None]) is closed again. *)
Definition api_attempt (E : Env) (method endpoint : string)
  (params : option (Dict.t pyval)) (shared_client : option nat)
  : M response_info :=
  info <- send_request E (build_request E method endpoint params) ;;
  match shared_client with
  | None => emit EvClose
  | Some _ => ret tt
  end ;;
  ret info.

(** What [api_call_with_retries] does before it calls itself again. *)
Definition retry_pause (E : Env) (try_count : Z) : M unit :=
  time_sleep <- retry_sleep_time E try_count ;;
  emit EvPrint ;;
  sleep time_sleep.

Equations? api_call_with_retries (E : Env) (method endpoint : string)
  (params : option (Dict.t pyval)) (shared_client : option nat)
  (try_count : Z) (w : World) : result pyval * World
  by wf (Z.to_nat (API_MAX_RETRIES (Constants E) - try_count)) lt :=
api_call_with_retries E method endpoint params shared_client try_count w
  with api_attempt E method endpoint params shared_client w := {
  | (Raise e, w1) => (Raise e, w1)
  | (Ok info, w1)
      with request_errors info || is_None (parsed_response info) := {
      | false => (Ok (parsed_response info), w1)
      | true with Z_lt_dec try_count (API_MAX_RETRIES (Constants E)) := {
          | left _ =>
              api_call_with_retries E method endpoint params shared_client
                (try_count + 1)
                (snd (retry_pause E (try_count + 1) w1))
          | right _ =>
              (Raise (XeggexAPIError (parsed_response info) (http_status info)),
               w1) } } }.
Proof. lia. Qed.

(** ** xeggex_api_order_book_data_source.py : the symbol registry *)

Definition result_bind {A B} (r : result A) (k : A -> result B) : result B :=
  match r with
  | Ok a => k a
  | Raise e => Raise e
  end.

Notation "'let?' x := r 'in' k" := (result_bind r (fun x => k))
  (at level 10, x name, r at level 100, k at level 200) : py_scope.

(** [[f(x) for x in l]], stopping at the first [x] on which [f] raises. *)
Fixpoint result_map {A B} (f : A -> result B) (l : list A) : result (list B) :=
  match l with
  | [] => Ok []
  | x :: l' =>
      let? y := f x in
      let? ys := result_map f l' in
      Ok (y :: ys)
  end.

(** [v[k]] for a string [k]: only a dict can be indexed by a string. *)
Definition subscript (v : pyval) (k : string) : result pyval :=
  match v with
  | PDict d =>
      match Dict.get k d with
      | Some x => Ok x
      | None => Raise (KeyError k)
      end
  | _ => Raise TypeError
  end.

(** [for x in v] : the elements of a list, the keys of a dict, the characters
    of a string; anything else is not iterable. *)
Definition py_iter (v : pyval) : result (list pyval) :=
  match v with
  | PList l => Ok l
  | PDict d => Ok (map PStr (Dict.keys d))
  | PStr s =>
      Ok (map (fun c => PStr (String c EmptyString)) (list_ascii_of_string s))
  | _ => Raise TypeError
  end.

(** [f"{v}"] *)
Definition format_value (E : Env) (v : pyval) : string :=
  match v with
  | PStr s => s
  | _ => py_str E v
  end.

(** One item of the dict comprehension of [init_trading_pair_symbols]: key,
    then value.  The map is a [Dict[str, str]]: symbols are strings, and a
    key of another kind is refused here as Python refuses a list or a dict. *)
Definition symbol_entry (E : Env) (symbol_data : pyval)
  : result (string * string) :=
  let? symbol := subscript symbol_data "symbol" in
  let? primary := subscript symbol_data "primaryAsset" in
  let? primary_ticker := subscript primary "ticker" in
  let? secondary := subscript symbol_data "secondaryAsset" in
  let? secondary_ticker := subscript secondary "ticker" in
  match symbol with
  | PStr s =>
      Ok (s, format_value E primary_ticker ++ "-" ++ format_value E secondary_ticker)
  | _ => Raise TypeError
  end.

(** The dict comprehension over the instrument listing. *)
Definition symbol_map_of_listing (E : Env) (symbols : pyval)
  : result (Dict.t string) :=
  let? items := py_iter symbols in
  let? entries := result_map (symbol_entry E) items in
  Ok (Dict.of_items entries).

Definition get_symbol_map : M (Dict.t string) :=
  fun w => (Ok (symbol_map w), w).

Definition set_symbol_map (m : Dict.t string) : M unit :=
  fun w =>
    (Ok tt,
     {| symbol_map := m; output := output w; requests := requests w;
        draws := draws w; trace := trace w |}).

Definition init_trading_pair_symbols (E : Env) (shared_session : option nat)
  : M unit :=
  symbols <- api_call_with_retries E "GET" (ENDPOINT_SYMBOL (Constants E))
               None shared_session 0 ;;
  m <- lift (symbol_map_of_listing E symbols) ;;
  set_symbol_map m.

Definition trading_pair_symbol_map (E : Env) : M (Dict.t string) :=
  m <- get_symbol_map ;;
  (if negb (Dict.truthy m) then init_trading_pair_symbols E None else ret tt) ;;
  get_symbol_map.

(** [[symbol for symbol, pair in symbol_map.items() if pair == trading_pair]] *)
Definition symbols_of_pair (trading_pair : string) (m : Dict.t string)
  : list string :=
  map fst (filter (fun item => String.eqb (snd item) trading_pair) m).

Definition exchange_symbol_associated_to_pair (E : Env) (trading_pair : string)
  : M string :=
  m <- trading_pair_symbol_map E ;;
  match symbols_of_pair trading_pair m with
  | symbol :: _ => ret symbol
  | [] =>
      raise (ValueError
               ("There is no symbol mapping for trading pair " ++ trading_pair))
  end.

Definition trading_pair_associated_to_exchange_symbol (E : Env) (symbol : string)
  : M string :=
  m <- trading_pair_symbol_map E ;;
  match Dict.get symbol m with
  | Some trading_pair => ret trading_pair
  | None => raise (KeyError symbol)
  end.

Definition fetch_trading_pairs (E : Env) : M (list string) :=
  m <- trading_pair_symbol_map E ;;
  ret (Dict.values m).

Definition status_value (status : option Z) : pyval :=
  match status with
  | Some z => PInt z
  | None => PNone
  end.

(** The [except XeggexAPIError] clause of [get_order_book_data]: [err] is the
    payload's ["error"] entry, and [err.get] exists only on a dict. *)
Definition order_book_error (E : Env) (trading_pair : string)
  (error : pyval) (status : option Z) : exn :=
  match error with
  | PDict err =>
      let message :=
        match Dict.get "message" err with
        | Some v => v
        | None => PStr (py_str E error)
        end in
      IOError ("Error fetching OrderBook for " ++ trading_pair ++ " at "
               ++ EXCHANGE_NAME (Constants E) ++ ". HTTP status is "
               ++ format_value E (status_value status) ++ ". Error is "
               ++ format_value E message ++ ".")
  | _ => AttributeError
  end.

Definition get_order_book_data (E : Env) (trading_pair : string) : M pyval :=
  fun w =>
    match
      (ex_pair <- exchange_symbol_associated_to_pair E trading_pair ;;
       api_call_with_retries E "GET" (ENDPOINT_ORDER_BOOK (Constants E))
         (Some [("depth", PInt 150); ("ticker_id", PStr ex_pair)]) None 0) w
    with
    | (Raise (XeggexAPIError error status), w') =>
        (Raise (order_book_error E trading_pair error status), w')
    | other => other
    end.

(** ** The REST-snapshot poller *)

(** [output.put_nowait(msg)] on the unbounded queue. *)
Definition put_nowait (msg : XeggexOrderBookMessage) : M unit :=
  fun w =>
    (Ok tt,
     {| symbol_map := symbol_map w; output := output w ++ [msg];
        requests := requests w; draws := draws w; trace := trace w |}).

(** The message built from a fetched snapshot, whose timestamp is its own
    ["timestamp"] entry. *)
Definition snapshot_message_of (trading_pair : string) (snapshot : pyval)
  : result XeggexOrderBookMessage :=
  let? snapshot_timestamp := subscript snapshot "timestamp" in
  match snapshot with
  | PDict d =>
      Ok (snapshot_message_from_exchange d snapshot_timestamp
            (Some [("trading_pair", PStr trading_pair)]))
  | _ => Raise AttributeError
  end.

(** What polling [trading_pair] in the world [w] has to put on the queue:
    the message of the snapshot, when it is fetched and has its timestamp. *)
Definition snapshot_due (E : Env) (trading_pair : string) (w : World)
  : list XeggexOrderBookMessage :=
  match get_order_book_data E trading_pair w with
  | (Ok snapshot, _) =>
      match snapshot_message_of trading_pair snapshot with
      | Ok msg => [msg]
      | Raise _ => []
      end
  | (Raise _, _) => []
  end.

(** The body of the [for] loop of [listen_for_order_book_snapshots], with its
    [try] and both [except] clauses. *)
Definition poll_trading_pair (E : Env) (trading_pair : string) : M unit :=
  try_except
    (snapshot <- get_order_book_data E trading_pair ;;
     snapshot_msg <- lift (snapshot_message_of trading_pair snapshot) ;;
     put_nowait snapshot_msg ;;
     emit (EvLog "debug") ;;
     sleep 5)
    (fun _ => emit (EvLog "network") ;; sleep 5).

Fixpoint for_each {A} (l : list A) (body : A -> M unit) : M unit :=
  match l with
  | [] => ret tt
  | x :: l' => body x ;; for_each l' body
  end.

(** [for trading_pair in self._trading_pairs: ...] : one cycle of the poller. *)
Definition poll_trading_pairs (E : Env) (trading_pairs : list string) : M unit :=
  for_each trading_pairs (poll_trading_pair E).

(** One turn of the [while True] loop: the cycle, the sleep of [delta]
    seconds up to the next full hour (read off the wall clock), and the outer
    [except] clauses. *)
Definition snapshots_turn (E : Env) (trading_pairs : list string) (delta : Q)
  : M unit :=
  try_except
    (poll_trading_pairs E trading_pairs ;; sleep delta)
    (fun _ => emit (EvLog "error") ;; sleep 5).

(** ** Concurrent first uses of the symbol map

    Tasks of one event loop that each call [trading_pair_symbol_map].  A task
    runs until it awaits: its first step tests the class attribute and, when
    the map is empty, starts [init_trading_pair_symbols] and waits for the
    listing; its second step receives the listing, assigns the map and
    returns it.  [listing k] is what the k-th call of [api_call_with_retries]
    started for the listing comes back with. *)

Module Concurrent.

Inductive task : Type :=
| Created
| AwaitingListing (k : nat)
| Returned (m : Dict.t string)
| Failed (e : exn).

Record state : Type := {
  class_map : Dict.t string;
  fetches : nat;
  tasks : list task
}.

Definition start (n : nat) : state :=
  {| class_map := Dict.empty; fetches := 0; tasks := repeat Created n |}.

Fixpoint set_task (i : nat) (t : task) (ts : list task) : list task :=
  match ts, i with
  | [], _ => []
  | _ :: ts', O => t :: ts'
  | t' :: ts', S i' => t' :: set_task i' t ts'
  end.

(** Task [i] runs up to its next await or to its end. *)
Definition step (E : Env) (listing : nat -> result pyval) (i : nat)
  (st : state) : state :=
  match nth_error (tasks st) i with
  | Some Created =>
      if negb (Dict.truthy (class_map st))
      then {| class_map := class_map st; fetches := S (fetches st);
              tasks := set_task i (AwaitingListing (fetches st)) (tasks st) |}
      else {| class_map := class_map st; fetches := fetches st;
              tasks := set_task i (Returned (class_map st)) (tasks st) |}
  | Some (AwaitingListing k) =>
      match result_bind (listing k) (symbol_map_of_listing E) with
      | Ok m =>
          {| class_map := m; fetches := fetches st;
             tasks := set_task i (Returned m) (tasks st) |}
      | Raise e =>
          {| class_map := class_map st; fetches := fetches st;
             tasks := set_task i (Failed e) (tasks st) |}
      end
  | _ => st
  end.

(** The event loop runs the tasks in the order of the schedule. *)
Definition run (E : Env) (listing : nat -> result pyval)
  (schedule : list nat) (st : state) : state :=
  fold_left (fun s i => step E listing i s) schedule st.

Definition finished (t : task) : bool :=
  match t with
  | Returned _ | Failed _ => true
  | _ => false
  end.

Definition all_finished (st : state) : bool := forallb finished (tasks st).

(** One task after the other, each up to its end. *)
Definition sequential (n : nat) : list nat :=
  flat_map (fun i => [i; i]) (seq 0 n).

(** Every task makes its first step before any makes its second. *)
Definition overlapping (n : nat) : list nat := seq 0 n ++ seq 0 n.

End Concurrent.

(** ** xeggex_utils.py : trading pairs and client order ids *)

(** [s.split(sep)] for a separator of one character: the segments between
    the occurrences of [sep], at least one. *)
Fixpoint split_on (sep : ascii) (s : string) : list string :=
  match s with
  | EmptyString => [EmptyString]
  | String c s' =>
      if Ascii.eqb c sep then EmptyString :: split_on sep s'
      else match split_on sep s' with
           | seg :: segs => String c seg :: segs
           | [] => [String c EmptyString]
           end
  end.

(** [split_trading_pair]: [m[1]] raises [IndexError] when there is one
    segment only, and [except Exception] turns that into [None]. *)
Definition split_trading_pair (trading_pair : string)
  : option (string * string) :=
  match split_on "-" trading_pair with
  | base :: quote :: _ => Some (upper base, upper quote)
  | _ => None
  end.

(** [s[-1]], for a string that starts with [c] and goes on with [s]. *)
Fixpoint last_char (c : ascii) (s : string) : ascii :=
  match s with
  | EmptyString => c
  | String c' s' => last_char c' s'
  end.

(** [f"{s[0]}{s[-1]}"] : [IndexError] ([None] here) on the empty string. *)
Definition first_and_last (s : string) : option string :=
  match s with
  | EmptyString => None
  | String c s' => Some (String c (String (last_char c s') EmptyString))
  end.

(** [get_new_client_order_id].  [broker_id] is [Constants.HBOT_BROKER_ID] and
    [nonce] what [get_tracking_nonce()] returns, both from outside these
    files.  The function catches nothing: [None] stands for the [IndexError]
    that [symbols[1]], [base[0]] or [quote[0]] raises. *)
Definition get_new_client_order_id (broker_id : string) (nonce : Z)
  (is_buy : bool) (trading_pair : string) : option string :=
  let side := if is_buy then "B" else "S" in
  match split_on "-" trading_pair with
  | base :: quote :: _ =>
      match first_and_last (upper base), first_and_last (upper quote) with
      | Some base_str, Some quote_str =>
          Some (broker_id ++ "-" ++ side ++ "-" ++ base_str ++ quote_str
                ++ "-" ++ NilZero.string_of_int (Z.to_int nonce))
      | _, _ => None
      end
  | _ => None
  end.

(** The string has no occurrence of the character. *)
Definition free_of (c : ascii) (s : string) : Prop :=
  ~ In c (list_ascii_of_string s).

(** How often a trace closes a session. *)
Definition is_close (ev : event) : bool :=
  match ev with
  | EvClose => true
  | _ => false
  end.

Definition closes (tr : list event) : nat := List.length (filter is_close tr).

(** The call was cancelled. *)
Definition cancelled {A} (r : result A) : bool :=
  match r with
  | Raise CancelledError => true
  | _ => false
  end.

(** ** The websocket listeners: what they do with a message

    [listen_for_trades] and [listen_for_order_book_diffs] read the messages
    of an [XeggexWebsocket], which is declared outside these files.  What is
    embedded is the body of their [async for] loops, and the loop over the
    messages that have arrived. *)

(** Modelled from the spec: the method names are entries of
    [Constants.WS_METHODS] in [xeggex_constants.py], which is not among the
    files verified here, and [str_date_to_ts] is
    [int(dateparse(date).timestamp())] with [dateparse] of dateutil; all four
    are parameters. *)
Record WsEnv : Type := {
  WS_TRADES_UPDATE : string;
  WS_ORDERS_SNAPSHOT : string;
  WS_ORDERS_UPDATE : string;
  str_date_to_ts : pyval -> result pyval
}.

(** [v.get(k, None)] : only a dict has [get]. *)
Definition attr_get (v : pyval) (k : string) : result pyval :=
  match v with
  | PDict d => Ok (py_get k d)
  | _ => Raise AttributeError
  end.

(** [v == s] for a string [s]. *)
Definition py_is_str (v : pyval) (s : string) : bool :=
  match v with
  | PStr s' => String.eqb s' s
  | _ => false
  end.

(** [trading_pair_associated_to_exchange_symbol(symbol)] for whatever value
    the message has as its symbol: the map is obtained first; a list or a
    dict cannot be hashed, and any other value that is not a string is no key
    of the map (the [KeyError] carries its [str()]). *)
Definition trading_pair_of_symbol_value (E : Env) (symbol : pyval) : M string :=
  match symbol with
  | PStr s => trading_pair_associated_to_exchange_symbol E s
  | PList _ | PDict _ => _ <- trading_pair_symbol_map E ;; raise TypeError
  | _ => _ <- trading_pair_symbol_map E ;; raise (KeyError (py_str E symbol))
  end.

(** The body of [for trade in trades_data["data"]]. *)
Definition on_trade (W : WsEnv) (trading_pair : string) (trade : pyval)
  : M unit :=
  date <- lift (subscript trade "timestamp") ;;
  trade_timestamp <- lift (str_date_to_ts W date) ;;
  match trade with
  | PDict d =>
      put_nowait (trade_message_from_exchange d trade_timestamp
                    (Some [("trading_pair", PStr trading_pair)]))
  | _ => raise AttributeError
  end.

(** The body of [async for response in ws.on_message()] in
    [listen_for_trades]. *)
Definition on_trades_response (E : Env) (W : WsEnv) (response : pyval)
  : M unit :=
  method <- lift (attr_get response "method") ;;
  trades_data <- lift (attr_get response "params") ;;
  if is_None trades_data || negb (py_is_str method (WS_TRADES_UPDATE W))
  then ret tt
  else
    params <- lift (subscript response "params") ;;
    symbol <- lift (subscript params "symbol") ;;
    trading_pair <- trading_pair_of_symbol_value E symbol ;;
    data <- lift (subscript trades_data "data") ;;
    trades <- lift (py_iter data) ;;
    for_each trades (on_trade W trading_pair).

(** The body of [async for response in ws.on_message()] in
    [listen_for_order_book_diffs]. *)
Definition on_order_book_response (E : Env) (W : WsEnv) (response : pyval)
  : M unit :=
  method <- lift (attr_get response "method") ;;
  order_book_data <- lift (attr_get response "params") ;;
  if is_None order_book_data
     || negb (py_is_str method (WS_ORDERS_SNAPSHOT W)
              || py_is_str method (WS_ORDERS_UPDATE W))
  then ret tt
  else
    date <- lift (subscript order_book_data "timestamp") ;;
    timestamp <- lift (str_date_to_ts W date) ;;
    symbol <- lift (subscript order_book_data "symbol") ;;
    trading_pair <- trading_pair_of_symbol_value E symbol ;;
    match order_book_data with
    | PDict d =>
        let order_book_msg_cls :=
          if py_is_str method (WS_ORDERS_UPDATE W)
          then diff_message_from_exchange
          else snapshot_message_from_exchange in
        put_nowait (order_book_msg_cls d timestamp
                      (Some [("trading_pair", PStr trading_pair)]))
    | _ => raise AttributeError
    end.

(** The messages of a connection, in the order of their arrival. *)
Definition on_trades_stream (E : Env) (W : WsEnv) (responses : list pyval)
  : M unit :=
  for_each responses (on_trades_response E W).

Definition on_order_book_stream (E : Env) (W : WsEnv) (responses : list pyval)
  : M unit :=
  for_each responses (on_order_book_response E W).

(** What is due for a message of the order-book channel, given the symbol
    map [m]: nothing for a message without params or with another method;
    for a snapshot or an update whose params have a date that parses and a
    listed symbol, the message of that kind, made of the params and the
    trading pair. *)
Definition book_response_due (W : WsEnv) (m : Dict.t string)
  (response : pyval) (due : list XeggexOrderBookMessage) : Prop :=
  exists r,
    response = PDict r /\
    ((due = [] /\
      (py_get "params" r = PNone \/
       (py_is_str (py_get "method" r) (WS_ORDERS_SNAPSHOT W) = false /\
        py_is_str (py_get "method" r) (WS_ORDERS_UPDATE W) = false))) \/
     (exists params date ts symbol trading_pair,
         Dict.get "params" r = Some (PDict params) /\
         (py_is_str (py_get "method" r) (WS_ORDERS_SNAPSHOT W) = true \/
          py_is_str (py_get "method" r) (WS_ORDERS_UPDATE W) = true) /\
         Dict.get "timestamp" params = Some date /\
         str_date_to_ts W date = Ok ts /\
         Dict.get "symbol" params = Some (PStr symbol) /\
         Dict.get symbol m = Some trading_pair /\
         due =
         [{| message_type :=
               if py_is_str (py_get "method" r) (WS_ORDERS_UPDATE W)
               then DIFF else SNAPSHOT;
             content := Dict.update params
                          [("trading_pair", PStr trading_pair)];
             timestamp := ts |}])).

(** A well-formed trade and the message due for it. *)
Definition trade_due (W : WsEnv) (trading_pair : string) (trade : pyval)
  (msg : XeggexOrderBookMessage) : Prop :=
  exists d date ts,
    trade = PDict d /\
    Dict.get "timestamp" d = Some date /\
    str_date_to_ts W date = Ok ts /\
    msg = trade_message_from_exchange d ts
            (Some [("trading_pair", PStr trading_pair)]).

(** A message of the trade channel for the listed symbol of [trading_pair],
    with the list [trades] as its data. *)
Definition trades_response (W : WsEnv) (m : Dict.t string) (response : pyval)
  (trading_pair : string) (trades : list pyval) : Prop :=
  exists r params symbol,
    response = PDict r /\
    py_is_str (py_get "method" r) (WS_TRADES_UPDATE W) = true /\
    Dict.get "params" r = Some (PDict params) /\
    Dict.get "symbol" params = Some (PStr symbol) /\
    Dict.get symbol m = Some trading_pair /\
    Dict.get "data" params = Some (PList trades).

(** ** The statements of the spec that are compared with the code *)

(** Every classified response is counted as failed exactly when the spec
    says so. *)
Definition classifies_as_spec : Prop :=
  forall o info,
    aiohttp_response_with_errors o = Ok info ->
    request_errors info = failed_by_spec o.

(** Looking a symbol up sends no request and leaves the stored map alone, on
    any map, and fails on a symbol that the map does not have. *)
Definition lookup_never_initializes (E : Env) : Prop :=
  forall w symbol,
    requests (snd (trading_pair_associated_to_exchange_symbol E symbol w))
    = requests w /\
    symbol_map (snd (trading_pair_associated_to_exchange_symbol E symbol w))
    = symbol_map w /\
    (Dict.get symbol (symbol_map w) = None ->
     fst (trading_pair_associated_to_exchange_symbol E symbol w)
     = Raise (KeyError symbol)).

(** Single-flight: however [n] first uses interleave, once all have ended
    one listing was fetched and all hold the same populated map. *)
Definition single_flight (E : Env) (listing : nat -> result pyval) : Prop :=
  forall n schedule,
    (1 <= n)%nat ->
    Concurrent.all_finished
      (Concurrent.run E listing schedule (Concurrent.start n)) = true ->
    Concurrent.fetches
      (Concurrent.run E listing schedule (Concurrent.start n)) = 1%nat /\
    exists m,
      Dict.truthy m = true /\
      Concurrent.tasks (Concurrent.run E listing schedule (Concurrent.start n))
      = repeat (Concurrent.Returned m) n.

(** ** Sample data for the examples *)

Definition sample_constants : ConstantsT :=
  {| REST_URL := "https://api.xeggex.com/api/v2";
     API_MAX_RETRIES := 4;
     API_CALL_TIMEOUT := 10;
     ENDPOINT_SYMBOL := "market/getlist";
     ENDPOINT_ORDER_BOOK := "orderbook";
     EXCHANGE_NAME := "xeggex" |}.

Definition sample_str (v : pyval) : string :=
  match v with
  | PNone => "None"
  | PBool true => "True"
  | PBool false => "False"
  | PInt z => NilZero.string_of_int (Z.to_int z)
  | PStr s => s
  | _ => "..."
  end.

Definition sample_env (net : nat -> request -> http_outcome) : Env :=
  {| Constants := sample_constants; network := net;
     entropy := fun n => Z.of_nat n; py_str := sample_str |}.

Definition instrument (symbol base quote : string) : pyval :=
  PDict [("symbol", PStr symbol);
         ("primaryAsset", PDict [("ticker", PStr base)]);
         ("secondaryAsset", PDict [("ticker", PStr quote)])].

Definition sample_listing : pyval :=
  PList [instrument "BTCUSDT" "BTC" "USDT";
         instrument "ETH/USDT" "ETH" "USDT";
         instrument "XBTUSDT" "BTC" "USDT";
         instrument "LTC/USDT" "LTC" "USDT"].

(** An exchange that lists four instruments and has a book for all but
    ETH/USDT, for which it answers 500 with a text body. *)
Definition sample_exchange (n : nat) (r : request) : http_outcome :=
  match req_params r with
  | None => HttpResponse 200 (PStr "OK") (JsonOk sample_listing)
  | Some params =>
      match Dict.get "ticker_id" params with
      | Some (PStr "ETH/USDT") =>
          HttpResponse 500 (PStr "Internal Server Error")
            (JsonError (Some "b'upstream failure'"))
      | Some ticker =>
          HttpResponse 200 (PStr "OK")
            (JsonOk (PDict [("timestamp", PInt 1700000000);
                            ("bids", PList []); ("asks", PList []);
                            ("ticker_id", ticker)]))
      | None => HttpConnectError
      end
  end.

(** An exchange that is down. *)
Definition sample_outage (n : nat) (r : request) : http_outcome :=
  HttpResponse 503 (PStr "Service Unavailable")
    (JsonError (Some "b'upstream timeout'")).

(** Sample websocket parameters and messages. *)
Definition sample_ws : WsEnv :=
  {| WS_TRADES_UPDATE := "updateTrades";
     WS_ORDERS_SNAPSHOT := "snapshotOrderbook";
     WS_ORDERS_UPDATE := "updateOrderbook";
     str_date_to_ts := fun date =>
                         match date with
                         | PStr _ => Ok (PInt 1700000000)
                         | _ => Raise TypeError
                         end |}.

Definition sample_book_params : Dict.t pyval :=
  [("symbol", PStr "BTCUSDT"); ("timestamp", PStr "2023-11-14T22:13:20Z");
   ("bids", PList []); ("asks", PList [])].

Definition sample_book_message (method : string) : pyval :=
  PDict [("method", PStr method); ("params", PDict sample_book_params)].

Definition sample_ack : pyval := PDict [("id", PInt 1); ("result", PBool true)].

Definition sample_trade (id : Z) : Dict.t pyval :=
  [("id", PInt id); ("side", PStr "buy"); ("price", PStr "100.5");
   ("quantity", PStr "2"); ("timestamp", PStr "2023-11-14T22:13:20Z")].

Definition sample_trades_message (trades : list pyval) : pyval :=
  PDict [("method", PStr "updateTrades");
         ("params", PDict [("symbol", PStr "BTCUSDT"); ("data", PList trades)])].

Definition sample_world : World :=
  {| symbol_map := [("BTCUSDT", "BTC-USDT")]; output := []; requests := 0;
     draws := 0; trace := [] |}.

(** * Properties *)

(** ** Dicts *)

Section DictFacts.
Context {V : Type}.
Implicit Types (d o : Dict.t V) (k : string) (v : V).

Lemma get_set_same d k v : Dict.get k (Dict.set k v d) = Some v.
Proof.
  induction d as [|[k' v'] d IH]; simpl.
  - now rewrite String.eqb_refl.
  - destruct (String.eqb k' k) eqn:E; simpl; rewrite E; auto.
Qed.

Lemma get_set_other d k k' v :
  k <> k' -> Dict.get k' (Dict.set k v d) = Dict.get k' d.
Proof.
  intros Hne. induction d as [|[k0 v0] d IH]; simpl.
  - destruct (String.eqb_spec k k'); congruence.
  - destruct (String.eqb_spec k0 k) as [->|Hk0]; simpl.
    + destruct (String.eqb_spec k k'); congruence.
    + now rewrite IH.
Qed.

Lemma get_set d k k' v :
  Dict.get k' (Dict.set k v d) =
  if String.eqb k k' then Some v else Dict.get k' d.
Proof.
  destruct (String.eqb_spec k k') as [->|Hne].
  - apply get_set_same.
  - now apply get_set_other.
Qed.

Lemma keys_set_in d k v :
  Dict.get k d <> None -> Dict.keys (Dict.set k v d) = Dict.keys d.
Proof.
  induction d as [|[k' v'] d IH]; simpl; [congruence|].
  destruct (String.eqb k' k) eqn:E; simpl; intros H; [reflexivity|].
  now rewrite IH.
Qed.

Lemma keys_set_new d k v :
  Dict.get k d = None -> Dict.keys (Dict.set k v d) = (Dict.keys d ++ [k])%list.
Proof.
  induction d as [|[k' v'] d IH]; simpl; [reflexivity|].
  destruct (String.eqb k' k) eqn:E; simpl; intros H; [discriminate|].
  now rewrite IH.
Qed.

Lemma get_None_not_in d k : Dict.get k d = None <-> ~ In k (Dict.keys d).
Proof.
  induction d as [|[k' v'] d IH]; simpl; [tauto|].
  destruct (String.eqb_spec k' k) as [->|Hne].
  - split; [discriminate | tauto].
  - rewrite IH. tauto.
Qed.

Lemma get_Some_in d k v : Dict.get k d = Some v -> In (k, v) d.
Proof.
  induction d as [|[k' v'] d IH]; simpl; [discriminate|].
  destruct (String.eqb_spec k' k) as [->|Hne]; intros H.
  - left. congruence.
  - right. auto.
Qed.

Lemma in_get_wf d k v : Dict.wf d -> In (k, v) d -> Dict.get k d = Some v.
Proof.
  unfold Dict.wf.
  induction d as [|[k' v'] d IH]; simpl; [tauto|].
  intros Hnd [Heq|Hin]; inversion Hnd as [|? ? Hnotin Hnd']; subst.
  - inversion Heq; subst. now rewrite String.eqb_refl.
  - destruct (String.eqb_spec k' k) as [->|Hne].
    + exfalso. apply Hnotin. change (In (fst (k, v)) (map fst d)).
      now apply in_map.
    + auto.
Qed.

Lemma set_wf d k v : Dict.wf d -> Dict.wf (Dict.set k v d).
Proof.
  unfold Dict.wf. intros Hwf.
  destruct (Dict.get k d) eqn:E.
  - rewrite keys_set_in; [assumption | congruence].
  - rewrite keys_set_new by assumption.
    apply NoDup_app; [assumption | | ].
    + repeat constructor. simpl. tauto.
    + intros x Hx [<-|[]]. now apply get_None_not_in in E.
Qed.

Lemma update_wf d o : Dict.wf d -> Dict.wf (Dict.update d o).
Proof.
  unfold Dict.update. revert d.
  induction o as [|[k v] o IH]; simpl; intros d Hwf; [assumption|].
  apply IH. now apply set_wf.
Qed.

Lemma of_items_wf (items : list (string * V)) : Dict.wf (Dict.of_items items).
Proof. apply update_wf. constructor. Qed.

(** Looking a key up after [update]: the last item of [o] for that key, or
    else what [d] had. *)
Lemma get_update d o k :
  Dict.get k (Dict.update d o) =
  match Dict.get k (rev o) with
  | Some v => Some v
  | None => Dict.get k d
  end.
Proof.
  unfold Dict.update. revert d.
  induction o as [|[k0 v0] o IH] using rev_ind; intros d; [reflexivity|].
  rewrite fold_left_app, rev_app_distr. simpl.
  rewrite get_set. destruct (String.eqb k0 k); [reflexivity | apply IH].
Qed.

Lemma get_rev_wf o k : Dict.wf o -> Dict.get k (rev o) = Dict.get k o.
Proof.
  intros Hwf. destruct (Dict.get k o) as [v|] eqn:E.
  - apply in_get_wf.
    + unfold Dict.wf, Dict.keys in *. rewrite map_rev.
      now apply NoDup_rev.
    + apply in_rev. rewrite rev_involutive. now apply get_Some_in.
  - apply get_None_not_in. apply get_None_not_in in E.
    unfold Dict.keys in *. rewrite map_rev. now rewrite <- in_rev.
Qed.

(** For a dict [o], [d.update(o)] lets [o] win on the keys it has. *)
Lemma get_update_wf d o k :
  Dict.wf o ->
  Dict.get k (Dict.update d o) =
  match Dict.get k o with
  | Some v => Some v
  | None => Dict.get k d
  end.
Proof. intros Hwf. now rewrite get_update, get_rev_wf. Qed.

Lemma get_update_absent d o k :
  Dict.get k o = None -> Dict.get k (Dict.update d o) = Dict.get k d.
Proof.
  intros E. rewrite get_update.
  replace (Dict.get k (rev o)) with (@None V); [reflexivity|].
  symmetry. apply get_None_not_in. apply get_None_not_in in E.
  unfold Dict.keys in *. now rewrite map_rev, <- in_rev.
Qed.

End DictFacts.

(** ** The message normalizers *)

Section Normalizers.
Implicit Types (raw md : Dict.t pyval) (ts : pyval) (k : string).

Lemma get_merge_metadata raw md k :
  Dict.wf md ->
  Dict.get k (merge_metadata raw (Some md)) = merged_lookup raw md k.
Proof.
  intros Hwf. unfold merge_metadata, merged_lookup.
  destruct md as [|item md]; [reflexivity|].
  cbn [Dict.truthy]. now apply get_update_wf.
Qed.

Lemma get_merge_metadata_absent raw metadata k :
  metadata_get k metadata = None ->
  Dict.get k (merge_metadata raw metadata) = Dict.get k raw.
Proof.
  destruct metadata as [md|]; simpl; [|reflexivity].
  intros Hk. destruct (Dict.truthy md); [|reflexivity].
  now apply get_update_absent.
Qed.

Lemma py_get_merge_metadata_absent raw metadata k :
  metadata_get k metadata = None ->
  py_get k (merge_metadata raw metadata) = py_get k raw.
Proof.
  intros Hk. unfold py_get. now rewrite get_merge_metadata_absent.
Qed.

(** After the remap a canonical field holds what its source field held in
    the merged message; every other key is as the merge left it. *)
Lemma get_remapped (msg : Dict.t pyval) k :
  Dict.get k (Dict.update msg (canonical_trade_fields msg)) =
  match canonical_source k with
  | Some src => Some (py_get src msg)
  | None => Dict.get k msg
  end.
Proof.
  rewrite get_update. unfold canonical_source, canonical_trade_fields.
  cbn [rev app Dict.get].
  rewrite (String.eqb_sym "amount"), (String.eqb_sym "price"),
    (String.eqb_sym "trade_type"), (String.eqb_sym "exchange_order_id").
  destruct (String.eqb_spec k "amount") as [->|]; [reflexivity|].
  destruct (String.eqb_spec k "price") as [->|]; [reflexivity|].
  destruct (String.eqb_spec k "trade_type") as [->|]; [reflexivity|].
  destruct (String.eqb_spec k "exchange_order_id") as [->|]; reflexivity.
Qed.

(** C6. For every raw trade payload, [trade_message_from_exchange] builds a
    message of type TRADE in which [exchange_order_id] is the raw [id],
    [trade_type] the raw [side], [price] the raw [price] and [amount] the
    raw [quantity] (each as [raw.get] gives it), whether it is called
    without metadata or with metadata that leaves these four raw fields
    alone, such as the [{"trading_pair": pair}] of the trade listener. *)
Theorem trade_message_canonical_fields raw ts metadata :
  metadata_get "id" metadata = None ->
  metadata_get "side" metadata = None ->
  metadata_get "price" metadata = None ->
  metadata_get "quantity" metadata = None ->
  let m := trade_message_from_exchange raw ts metadata in
  message_type m = TRADE /\
  Dict.get "exchange_order_id" (content m) = Some (py_get "id" raw) /\
  Dict.get "trade_type" (content m) = Some (py_get "side" raw) /\
  Dict.get "price" (content m) = Some (py_get "price" raw) /\
  Dict.get "amount" (content m) = Some (py_get "quantity" raw).
Proof.
  intros Hid Hside Hprice Hqty m. subst m.
  unfold trade_message_from_exchange. cbn [message_type content].
  rewrite !get_remapped. cbn [canonical_source String.eqb Ascii.eqb Bool.eqb].
  rewrite !py_get_merge_metadata_absent by assumption.
  repeat split.
Qed.

(** The example of the spec: the payload
    [{"id": 42, "side": "buy", "price": "100.5", "quantity": "2"}], as the
    trade listener passes it on. *)
Lemma trade_message_canonical_fields_example :
  let raw := [("id", PInt 42); ("side", PStr "buy");
              ("price", PStr "100.5"); ("quantity", PStr "2")] in
  let m := trade_message_from_exchange raw (PInt 1700000000)
             (Some [("trading_pair", PStr "BTC-USDT")]) in
  message_type m = TRADE /\
  Dict.get "exchange_order_id" (content m) = Some (PInt 42) /\
  Dict.get "trade_type" (content m) = Some (PStr "buy") /\
  Dict.get "price" (content m) = Some (PStr "100.5") /\
  Dict.get "amount" (content m) = Some (PStr "2").
Proof.
  exact (trade_message_canonical_fields
           [("id", PInt 42); ("side", PStr "buy");
            ("price", PStr "100.5"); ("quantity", PStr "2")]
           (PInt 1700000000)
           (Some [("trading_pair", PStr "BTC-USDT")])
           eq_refl eq_refl eq_refl eq_refl).
Defined.

(** C10. [trade_message_from_exchange] reads the raw fields with [get], so
    it builds its TRADE message from any raw mapping: a canonical field gets
    the raw value when the source key is there and [None] when it is
    missing (metadata as for the previous theorem). *)
Theorem trade_message_missing_fields raw ts metadata :
  metadata_get "id" metadata = None ->
  metadata_get "side" metadata = None ->
  metadata_get "price" metadata = None ->
  metadata_get "quantity" metadata = None ->
  exists m,
    trade_message_from_exchange raw ts metadata = m /\
    message_type m = TRADE /\
    forall src dst,
      In (src, dst) [("id", "exchange_order_id"); ("side", "trade_type");
                     ("price", "price"); ("quantity", "amount")] ->
      (forall v, Dict.get src raw = Some v ->
                 Dict.get dst (content m) = Some v) /\
      (Dict.get src raw = None -> Dict.get dst (content m) = Some PNone).
Proof.
  intros Hid Hside Hprice Hqty.
  eexists. split; [reflexivity|]. split; [reflexivity|].
  intros src dst Hin.
  unfold trade_message_from_exchange. cbn [content].
  rewrite get_remapped.
  simpl in Hin.
  destruct Hin as [H|[H|[H|[H|[]]]]]; inversion H; subst src dst;
    cbn [canonical_source String.eqb Ascii.eqb Bool.eqb];
    rewrite py_get_merge_metadata_absent by assumption;
    unfold py_get; (split; [intros v -> | intros ->]); reflexivity.
Qed.

(** A trade without any of the four fields. *)
Lemma trade_message_missing_fields_example :
  exists m,
    trade_message_from_exchange [("timestamp", PStr "2024-01-01")] PNone None = m /\
    message_type m = TRADE /\
    forall src dst,
      In (src, dst) [("id", "exchange_order_id"); ("side", "trade_type");
                     ("price", "price"); ("quantity", "amount")] ->
      (forall v, Dict.get src [("timestamp", PStr "2024-01-01")] = Some v ->
                 Dict.get dst (content m) = Some v) /\
      (Dict.get src [("timestamp", PStr "2024-01-01")] = None ->
       Dict.get dst (content m) = Some PNone).
Proof.
  exact (trade_message_missing_fields [("timestamp", PStr "2024-01-01")]
           PNone None eq_refl eq_refl eq_refl eq_refl).
Defined.

(** C7, as the spec has it, does not hold of the trade normalizer: the
    metadata [{"exchange_order_id": 7}] collides with the raw payload
    [{"id": 42, "exchange_order_id": 1}], and the content ends up with 42. *)
Lemma trade_metadata_overridden :
  ~ merges_metadata trade_message_from_exchange.
Proof.
  intros H.
  specialize (H [("id", PInt 42); ("exchange_order_id", PInt 1)] PNone
                [("exchange_order_id", PInt 7)]).
  assert (Hwf : Dict.wf [("exchange_order_id", PInt 7)]).
  { repeat constructor. simpl. tauto. }
  specialize (H Hwf eq_refl "exchange_order_id").
  vm_compute in H. discriminate H.
Qed.

(** C7, amended.  The snapshot and the diff normalizer put the raw payload
    merged with the metadata into the message, metadata winning on common
    keys.  The trade normalizer then assigns the four canonical fields from
    the merged message: [exchange_order_id], [trade_type], [price] and
    [amount] hold what [id], [side], [price] and [quantity] are bound to
    after the merge ([None] if unbound), and only the other keys are as the
    merge left them. *)
Theorem normalizers_merge_metadata :
  merges_metadata snapshot_message_from_exchange /\
  merges_metadata diff_message_from_exchange /\
  (forall raw ts md,
      Dict.wf md -> Dict.truthy md = true ->
      forall k,
        Dict.get k (content (trade_message_from_exchange raw ts (Some md))) =
        match canonical_source k with
        | Some src => Some (or_None (merged_lookup raw md src))
        | None => merged_lookup raw md k
        end).
Proof.
  split; [|split].
  - intros raw ts md Hwf _ k. now apply get_merge_metadata.
  - intros raw ts md Hwf _ k. now apply get_merge_metadata.
  - intros raw ts md Hwf _ k.
    unfold trade_message_from_exchange. cbn [content].
    rewrite get_remapped.
    destruct (canonical_source k) as [src|].
    + unfold py_get. now rewrite get_merge_metadata.
    + now apply get_merge_metadata.
Qed.

(** With the metadata of the listeners and a colliding raw key. *)
Lemma normalizers_merge_metadata_example :
  let raw := [("trading_pair", PStr "stale"); ("id", PInt 42)] in
  let md := [("trading_pair", PStr "BTC-USDT")] in
  Dict.get "trading_pair" (content (snapshot_message_from_exchange raw PNone (Some md)))
  = Some (PStr "BTC-USDT") /\
  Dict.get "trading_pair" (content (trade_message_from_exchange raw PNone (Some md)))
  = Some (PStr "BTC-USDT") /\
  Dict.get "exchange_order_id" (content (trade_message_from_exchange raw PNone (Some md)))
  = Some (PInt 42).
Proof.
  intros raw md.
  assert (Hwf : Dict.wf md).
  { apply (of_items_wf [("trading_pair", PStr "BTC-USDT")]). }
  destruct normalizers_merge_metadata as (Hsnap & _ & Htrade).
  split; [|split].
  - exact (Hsnap raw PNone md Hwf eq_refl "trading_pair").
  - exact (Htrade raw PNone md Hwf eq_refl "trading_pair").
  - exact (Htrade raw PNone md Hwf eq_refl "exchange_order_id").
Defined.

End Normalizers.

(** ** The retrying REST client *)

Section RetrySleep.
Variable E : Env.
Implicit Types (w : World) (try_count : Z).

Lemma randint_range a b e : a <= b -> a <= randint a b e <= b.
Proof.
  intros Hab. unfold randint.
  pose proof (Z.mod_pos_bound e (b - a + 1)). lia.
Qed.

(** Every integer of the range is drawn for some entropy. *)
Lemma randint_onto a b k : a <= k <= b -> exists e, randint a b e = k.
Proof.
  intros Hk. exists (k - a). unfold randint.
  rewrite Z.mod_small; lia.
Qed.

Lemma randSleep_range e : (1.01 <= randSleep e <= 1.10)%Q.
Proof.
  unfold randSleep.
  pose proof (randint_range 1 10 e ltac:(lia)) as Hk.
  generalize dependent (randint 1 10 e). intros k Hk.
  unfold Qle, Qplus, Qdiv, Qmult, Qinv, inject_Z. cbn [Qnum Qden]. lia.
Qed.

Lemma growth_nonneg try_count :
  0 <= try_count -> (0 <= 1 + inject_Z (try_count ^ try_count))%Q.
Proof.
  intros Htc. pose proof (Z.pow_nonneg try_count try_count Htc) as Hp.
  unfold Qle, Qplus, inject_Z. cbn [Qnum Qden]. lia.
Qed.


End RetrySleep.


Section RestClient.
Variable E : Env.
Implicit Types (w : World) (method endpoint : string)
  (params : option (Dict.t pyval)) (shared_client : option nat)
  (try_count : Z) (o : http_outcome) (info : response_info).

Local Abbreviation MAX := (API_MAX_RETRIES (Constants E)).

(** How a response is classified, case by case: the membership test on the
    parsed body decides when the status is outside 200/201, and a test that
    raises counts as a failure. *)
Lemma request_errors_cases status reason body info :
  aiohttp_response_with_errors (HttpResponse status reason body) = Ok info ->
  request_errors info =
  match body with
  | JsonError _ => true
  | JsonOk v =>
      is_None v ||
      (negb (status_ok status) &&
       match py_contains "error" v with
       | Ok b => negb b
       | Raise _ => true
       end)
  end.
Proof.
  unfold aiohttp_response_with_errors, TempFailure.
  destruct body as [v|[raw|]].
  - destruct (is_None v) eqn:Hnone; cbn [orb].
    + intros [= <-]. reflexivity.
    + destruct (status_ok status); cbn [negb andb].
      * intros [= <-]. reflexivity.
      * destruct (py_contains "error" v) as [[|]|e] eqn:Hin; cbn [negb].
        -- intros [= <-]. reflexivity.
        -- intros [= <-]. reflexivity.
        -- destruct v; try discriminate Hin; injection Hin as <-;
             intros [= <-]; reflexivity.
  - cbn [is_None]. destruct (negb (status_ok status)).
    + cbn [py_contains]. destruct (negb (str_contains "error" (truncated raw)));
        intros [= <-]; reflexivity.
    + intros [= <-]. reflexivity.
  - cbn [is_None]. intros [= <-]. reflexivity.
Qed.

(** A response that is not counted as failed carries a body. *)
Lemma request_errors_false_parsed o info :
  aiohttp_response_with_errors o = Ok info ->
  request_errors info = false ->
  is_None (parsed_response info) = false.
Proof.
  destruct o as [| |status reason [v|[raw|]]]; cbn; try discriminate.
  - intros [= <-]. discriminate.
  - unfold TempFailure. destruct (is_None v) eqn:Hnone.
    + intros [= <-]. discriminate.
    + destruct (negb (status_ok status)).
      * destruct (py_contains "error" v) as [[|]|e]; cbn.
        -- intros [= <-]. cbn. now intros _.
        -- intros [= <-]. discriminate.
        -- destruct (is_Exception e); [|discriminate].
           intros [= <-]. discriminate.
      * intros [= <-]. now intros _.
  - unfold TempFailure. cbn [is_None].
    destruct (negb (status_ok status)); cbn.
    + destruct (negb (str_contains "error" (truncated raw)));
        intros [= <-]; discriminate.
    + intros [= <-]. discriminate.
  - intros [= <-]. discriminate.
Qed.

(** What one attempt does to the world: one more request, nothing else of
    the store touched. *)
Lemma api_attempt_run method endpoint params shared_client w :
  exists w1,
    api_attempt E method endpoint params shared_client w =
      (aiohttp_response_with_errors
         (network E (requests w) (build_request E method endpoint params)),
       w1) /\
    requests w1 = S (requests w) /\ draws w1 = draws w /\
    symbol_map w1 = symbol_map w /\ output w1 = output w.
Proof.
  unfold api_attempt, bind, send_request.
  destruct (aiohttp_response_with_errors _) as [info|e].
  - destruct shared_client; cbn; eexists; repeat split.
  - eexists; repeat split.
Qed.

Lemma retry_pause_run try_count w :
  requests (snd (retry_pause E try_count w)) = requests w /\
  draws (snd (retry_pause E try_count w)) = S (draws w) /\
  symbol_map (snd (retry_pause E try_count w)) = symbol_map w /\
  output (snd (retry_pause E try_count w)) = output w.
Proof. repeat split. Qed.

(** The body of [api_call_with_retries], as the source has it. *)
Lemma api_call_with_retries_body method endpoint params shared_client
  try_count w :
  api_call_with_retries E method endpoint params shared_client try_count w =
  match api_attempt E method endpoint params shared_client w with
  | (Raise e, w1) => (Raise e, w1)
  | (Ok info, w1) =>
      if attempt_failed info then
        if try_count <? MAX then
          api_call_with_retries E method endpoint params shared_client
            (try_count + 1) (snd (retry_pause E (try_count + 1) w1))
        else
          (Raise (XeggexAPIError (parsed_response info) (http_status info)), w1)
      else (Ok (parsed_response info), w1)
  end.
Proof.
  simp api_call_with_retries. unfold attempt_failed.
  destruct (api_attempt E method endpoint params shared_client w)
    as [[info|e] w1]; cbn; [|reflexivity].
  destruct (request_errors info || is_None (parsed_response info)); cbn;
    [|reflexivity].
  destruct (Z_lt_dec try_count MAX); cbn;
    destruct (Z.ltb_spec try_count MAX); try lia; reflexivity.
Qed.

(** When every attempt fails, the call started with [try_count] makes one
    attempt and one more for each retry left, and raises what the last
    attempt observed. *)
Lemma retries_exhausted_from method endpoint params shared_client :
  forall (n : nat) try_count w,
    Z.to_nat (MAX - try_count) = n ->
    always_fails E (requests w) ->
    exists last w',
      api_call_with_retries E method endpoint params shared_client try_count w
      = (Raise (XeggexAPIError (parsed_response last) (http_status last)), w')
      /\ requests w' = (requests w + (n + 1))%nat
      /\ draws w' = (draws w + n)%nat
      /\ aiohttp_response_with_errors
           (network E (requests w + n)
              (build_request E method endpoint params)) = Ok last.
Proof.
  induction n as [|n IH]; intros try_count w Hn Hfail;
    rewrite api_call_with_retries_body;
    destruct (api_attempt_run method endpoint params shared_client w)
      as (w1 & -> & Hreq & Hdraws & _);
    destruct (Hfail (requests w) (build_request E method endpoint params)
                (le_n _)) as (info & Hinfo & Hfailed);
    rewrite Hinfo, Hfailed.
  - destruct (Z.ltb_spec try_count MAX); [lia|].
    exists info, w1. rewrite !Nat.add_0_r. repeat split; try lia. exact Hinfo.
  - destruct (Z.ltb_spec try_count MAX); [|lia].
    destruct (retry_pause_run (try_count + 1) w1) as (Hreq' & Hdraws' & _).
    destruct (IH (try_count + 1) (snd (retry_pause E (try_count + 1) w1)))
      as (last & w' & Hcall & Hrequests & Hsleeps & Hlast).
    + lia.
    + intros k r Hk. apply Hfail. lia.
    + exists last, w'. rewrite Hcall. split; [reflexivity|].
      rewrite Hrequests, Hsleeps, Hreq', Hdraws', Hreq, Hdraws.
      repeat split; try lia.
      rewrite <- Hlast. f_equal. f_equal. lia.
Qed.



End RestClient.




(** ** The symbol registry *)

Section Registry.
Variable E : Env.
Implicit Types (w : World) (m : Dict.t string) (p s symbol : string).

Local Abbreviation MAX := (API_MAX_RETRIES (Constants E)).

(** A call of the REST client sends at least one request and touches
    neither the symbol map nor the output queue. *)
Lemma api_call_frame method endpoint params shared_client :
  forall (n : nat) try_count w,
    (Z.to_nat (MAX - try_count) <= n)%nat ->
    let w' :=
      snd (api_call_with_retries E method endpoint params shared_client
             try_count w) in
    symbol_map w' = symbol_map w /\ output w' = output w /\
    (requests w < requests w')%nat.
Proof.
  induction n as [|n IH]; intros try_count w Hn;
    rewrite api_call_with_retries_body;
    destruct (api_attempt_run E method endpoint params shared_client w)
      as (w1 & -> & Hreq & _ & Hmap & Hout);
    (destruct (aiohttp_response_with_errors _) as [info|e];
     [destruct (attempt_failed info);
      [destruct (Z.ltb_spec try_count MAX)|]|]);
    cbn [snd]; try (rewrite Hmap, Hout, Hreq; repeat split; lia).
  - lia.
  - destruct (retry_pause_run E (try_count + 1) w1) as (Hreq' & _ & Hmap' & Hout').
    destruct (IH (try_count + 1) (snd (retry_pause E (try_count + 1) w1)))
      as (IHmap & IHout & IHreq); [lia|].
    rewrite IHmap, IHout, Hmap', Hout', Hmap, Hout.
    repeat split. lia.
Qed.

Lemma api_call_frame_0 method endpoint params shared_client w :
  let w' :=
    snd (api_call_with_retries E method endpoint params shared_client 0 w) in
  symbol_map w' = symbol_map w /\ output w' = output w /\
  (requests w < requests w')%nat.
Proof. now apply (api_call_frame _ _ _ _ (Z.to_nat (MAX - 0))). Qed.

(** The map that [init_trading_pair_symbols] stores is a dict. *)
Lemma symbol_map_of_listing_wf symbols m :
  symbol_map_of_listing E symbols = Ok m -> Dict.wf m.
Proof.
  unfold symbol_map_of_listing, result_bind.
  destruct (py_iter symbols); [|discriminate].
  destruct (result_map _ _); [|discriminate].
  intros [= <-]. apply of_items_wf.
Qed.

(** The initialization sends at least one request and leaves the queue
    alone. *)
Lemma init_trading_pair_symbols_frame shared_session w :
  let w' := snd (init_trading_pair_symbols E shared_session w) in
  output w' = output w /\ (requests w < requests w')%nat.
Proof.
  unfold init_trading_pair_symbols, bind, lift, set_symbol_map.
  pose proof (api_call_frame_0 "GET" (ENDPOINT_SYMBOL (Constants E)) None
                shared_session w) as (_ & Hout & Hreq).
  destruct (api_call_with_retries _ _ _ _ _ _ _) as [[symbols|e] w1];
    cbn [snd] in *; [|now split].
  destruct (symbol_map_of_listing E symbols); cbn; now split.
Qed.

(** On a populated map [trading_pair_symbol_map] only reads. *)
Lemma trading_pair_symbol_map_populated w :
  Dict.truthy (symbol_map w) = true ->
  trading_pair_symbol_map E w = (Ok (symbol_map w), w).
Proof.
  intros Hpop. unfold trading_pair_symbol_map, bind, get_symbol_map.
  now rewrite Hpop.
Qed.

(** On an empty map it initializes first. *)
Lemma trading_pair_symbol_map_empty w :
  Dict.truthy (symbol_map w) = false ->
  let w' := snd (trading_pair_symbol_map E w) in
  output w' = output w /\ (requests w < requests w')%nat.
Proof.
  intros Hempty. unfold trading_pair_symbol_map, bind, get_symbol_map.
  rewrite Hempty. cbn [negb].
  pose proof (init_trading_pair_symbols_frame None w) as Hinit.
  destruct (init_trading_pair_symbols E None w) as [[[]|e] w1]; exact Hinit.
Qed.

Lemma trading_pair_symbol_map_output w :
  output (snd (trading_pair_symbol_map E w)) = output w.
Proof.
  destruct (Dict.truthy (symbol_map w)) eqn:Hpop.
  - now rewrite trading_pair_symbol_map_populated.
  - now apply trading_pair_symbol_map_empty.
Qed.

Lemma symbols_of_pair_head p m s rest :
  symbols_of_pair p m = s :: rest -> In (s, p) m.
Proof.
  unfold symbols_of_pair.
  induction m as [|[s0 p0] m IH]; cbn; [discriminate|].
  destruct (String.eqb_spec p0 p) as [->|Hne]; cbn.
  - intros [= -> _]. now left.
  - intros H. right. auto.
Qed.

Lemma symbols_of_pair_nonempty p m :
  In p (Dict.values m) -> symbols_of_pair p m <> [].
Proof.
  unfold symbols_of_pair, Dict.values.
  induction m as [|[s0 p0] m IH]; cbn; [tauto|].
  intros [->|Hin].
  - rewrite String.eqb_refl. discriminate.
  - destruct (String.eqb p0 p); [discriminate | auto].
Qed.

(** C3. On a populated symbol map, a trading pair [p] that is among the
    values resolves to an exchange symbol [s] with [map[s] == p], and [s]
    resolves back to [p]; neither lookup changes anything. *)
Theorem symbol_round_trip w p :
  Dict.wf (symbol_map w) ->
  In p (Dict.values (symbol_map w)) ->
  exists s,
    exchange_symbol_associated_to_pair E p w = (Ok s, w) /\
    Dict.get s (symbol_map w) = Some p /\
    trading_pair_associated_to_exchange_symbol E s w = (Ok p, w).
Proof.
  intros Hwf Hin.
  assert (Hpop : Dict.truthy (symbol_map w) = true).
  { destruct (symbol_map w); [destruct Hin | reflexivity]. }
  pose proof (symbols_of_pair_nonempty _ _ Hin) as Hne.
  destruct (symbols_of_pair p (symbol_map w)) as [|s rest] eqn:Hsyms;
    [congruence|].
  pose proof (in_get_wf _ _ _ Hwf (symbols_of_pair_head _ _ _ _ Hsyms)) as Hget.
  exists s. repeat split.
  - unfold exchange_symbol_associated_to_pair, bind.
    now rewrite trading_pair_symbol_map_populated, Hsyms.
  - exact Hget.
  - unfold trading_pair_associated_to_exchange_symbol, bind.
    now rewrite trading_pair_symbol_map_populated, Hget.
Qed.

(** C4, amended.  On a populated map the lookup of a symbol sends no request
    and changes nothing, and raises [KeyError] when the symbol is absent.
    On the empty map it first initializes the map, as the lookup of a pair
    does: at least one request goes out. *)
Theorem symbol_lookup_initializes_only_when_empty w symbol :
  (Dict.truthy (symbol_map w) = true ->
   trading_pair_associated_to_exchange_symbol E symbol w =
   (match Dict.get symbol (symbol_map w) with
    | Some p => Ok p
    | None => Raise (KeyError symbol)
    end, w)) /\
  (Dict.truthy (symbol_map w) = false ->
   (requests w <
    requests (snd (trading_pair_associated_to_exchange_symbol E symbol w)))%nat).
Proof.
  split; intros Hmap;
    unfold trading_pair_associated_to_exchange_symbol, bind.
  - rewrite trading_pair_symbol_map_populated by assumption.
    now destruct (Dict.get symbol (symbol_map w)).
  - pose proof (trading_pair_symbol_map_empty w Hmap) as (_ & Hreq).
    destruct (trading_pair_symbol_map E w) as [[m|e] w1]; cbn [snd] in *;
      [|exact Hreq].
    now destruct (Dict.get symbol m).
Qed.

End Registry.

(** The example of the spec: with the map [{"BTCUSDT": "BTC-USDT"}],
    "BTC-USDT" resolves to "BTCUSDT" and back. *)
Lemma symbol_round_trip_example :
  let w := {| symbol_map := [("BTCUSDT", "BTC-USDT")]; output := [];
              requests := 0; draws := 0; trace := [] |} in
  exists s,
    exchange_symbol_associated_to_pair (sample_env sample_outage) "BTC-USDT" w
    = (Ok s, w) /\
    Dict.get s (symbol_map w) = Some "BTC-USDT" /\
    trading_pair_associated_to_exchange_symbol (sample_env sample_outage) s w
    = (Ok "BTC-USDT", w).
Proof.
  intros w.
  apply (symbol_round_trip (sample_env sample_outage) w "BTC-USDT").
  - apply (of_items_wf [("BTCUSDT", "BTC-USDT")]).
  - now left.
Defined.

(** C4, as the spec has it, fails on the empty map: the lookup of "BTCUSDT"
    fetches the listing, stores the map and returns the pair. *)
Lemma symbol_lookup_initializes :
  ~ lookup_never_initializes (sample_env sample_exchange).
Proof.
  intros H. destruct (H initial_world "BTCUSDT") as (Hreq & _).
  vm_compute in Hreq. discriminate Hreq.
Qed.

(** Both cases on sample data: a stored map without the symbol, and the
    empty map. *)
Lemma symbol_lookup_example :
  let w := {| symbol_map := [("BTCUSDT", "BTC-USDT")]; output := [];
              requests := 0; draws := 0; trace := [] |} in
  trading_pair_associated_to_exchange_symbol (sample_env sample_exchange)
    "DOGEUSDT" w = (Raise (KeyError "DOGEUSDT"), w) /\
  (0 < requests
         (snd (trading_pair_associated_to_exchange_symbol
                 (sample_env sample_exchange) "BTCUSDT" initial_world)))%nat.
Proof.
  intros w. split.
  - exact (proj1 (symbol_lookup_initializes_only_when_empty
                    (sample_env sample_exchange) w "DOGEUSDT") eq_refl).
  - exact (proj2 (symbol_lookup_initializes_only_when_empty
                    (sample_env sample_exchange) initial_world "BTCUSDT")
             eq_refl).
Defined.

(** ** The REST-snapshot poller *)

Section Poller.
Variable E : Env.
Implicit Types (w : World) (p : string) (pairs before after : list string).

Lemma exchange_symbol_associated_to_pair_output p w :
  output (snd (exchange_symbol_associated_to_pair E p w)) = output w.
Proof.
  unfold exchange_symbol_associated_to_pair, bind.
  pose proof (trading_pair_symbol_map_output E w) as Hout.
  destruct (trading_pair_symbol_map E w) as [[m|e] w1]; cbn [snd] in *;
    [|exact Hout].
  now destruct (symbols_of_pair p m).
Qed.

(** Fetching a book leaves the queue alone. *)
Lemma get_order_book_data_output p w :
  output (snd (get_order_book_data E p w)) = output w.
Proof.
  unfold get_order_book_data, bind.
  pose proof (exchange_symbol_associated_to_pair_output p w) as Hsym.
  destruct (exchange_symbol_associated_to_pair E p w) as [[ex_pair|e] w1];
    cbn [snd] in *.
  - pose proof (api_call_frame_0 E "GET" (ENDPOINT_ORDER_BOOK (Constants E))
                  (Some [("depth", PInt 150); ("ticker_id", PStr ex_pair)])
                  None w1) as (_ & Hout & _).
    destruct (api_call_with_retries _ _ _ _ _ _ _) as [[v|e] w2];
      cbn [snd] in *; [congruence|].
    destruct e; cbn [snd]; congruence.
  - destruct e; cbn [snd]; exact Hsym.
Qed.

(** Polling one pair appends what is due for it, and nothing else. *)
Lemma poll_trading_pair_output p w :
  output (snd (poll_trading_pair E p w)) = (output w ++ snapshot_due E p w)%list.
Proof.
  unfold poll_trading_pair, snapshot_due, try_except, bind, lift.
  pose proof (get_order_book_data_output p w) as Hout.
  destruct (get_order_book_data E p w) as [[snapshot|e] w1]; cbn [snd] in *.
  - destruct (snapshot_message_of p snapshot) as [msg|e]; cbn.
    + now rewrite Hout.
    + destruct (is_Exception e); cbn; now rewrite Hout, app_nil_r.
  - destruct (is_Exception e); cbn; now rewrite Hout, app_nil_r.
Qed.

(** Only a cancellation gets out of the [try] of the loop body. *)
Lemma poll_trading_pair_result p w :
  fst (poll_trading_pair E p w) = Ok tt \/
  fst (poll_trading_pair E p w) = Raise CancelledError.
Proof.
  unfold poll_trading_pair, try_except.
  match goal with |- context [bind ?a ?b w] => destruct (bind a b w) as [[[]|e] w1] end.
  - now left.
  - destruct e; cbn; auto.
Qed.

Lemma poll_trading_pairs_app before after w :
  poll_trading_pairs E (before ++ after) w =
  match poll_trading_pairs E before w with
  | (Ok _, w1) => poll_trading_pairs E after w1
  | (Raise e, w1) => (Raise e, w1)
  end.
Proof.
  unfold poll_trading_pairs. revert w.
  induction before as [|p before IH]; intros w; cbn; [reflexivity|].
  unfold bind.
  destruct (poll_trading_pair E p w) as [[[]|e] w1]; [apply IH | reflexivity].
Qed.

(** A cycle only ever appends to the queue. *)
Lemma poll_trading_pairs_output pairs :
  forall w, exists more,
    output (snd (poll_trading_pairs E pairs w)) = (output w ++ more)%list.
Proof.
  unfold poll_trading_pairs.
  induction pairs as [|p pairs IH]; intros w; cbn.
  - exists []. now rewrite app_nil_r.
  - unfold bind. pose proof (poll_trading_pair_output p w) as Hp.
    destruct (poll_trading_pair E p w) as [[[]|e] w1]; cbn [snd] in *.
    + destruct (IH w1) as (more & ->). rewrite Hp, <- app_assoc. eauto.
    + eauto.
Qed.


End Poller.

(** The example of the spec: of three pairs the second fails (its book
    requests end in 500 until the retries are used up), and the first and
    the third each have their snapshot on the queue. *)
Lemma poller_three_pairs :
  map (fun msg => (message_type msg, py_get "trading_pair" (content msg)))
    (output (snd (poll_trading_pairs (sample_env sample_exchange)
                    ["BTC-USDT"; "ETH-USDT"; "LTC-USDT"] initial_world)))
  = [(SNAPSHOT, PStr "BTC-USDT"); (SNAPSHOT, PStr "LTC-USDT")].
Proof. vm_compute. reflexivity. Qed.


(** ** Concurrent first uses of the symbol map *)

Section FirstUse.
Variable E : Env.
Variable listing : nat -> result pyval.
Import Concurrent.
Implicit Types (st : state) (t : task) (ts : list task).

Local Abbreviation runs := (run E listing).

Lemma nth_error_at ts1 ts2 t i :
  i = List.length ts1 -> nth_error (ts1 ++ t :: ts2) i = Some t.
Proof. intros ->. induction ts1; cbn; auto. Qed.

Lemma set_task_at ts1 ts2 t0 t i :
  i = List.length ts1 -> set_task i t (ts1 ++ t0 :: ts2) = (ts1 ++ t :: ts2)%list.
Proof. intros ->. induction ts1; cbn; congruence. Qed.

Lemma set_task_Forall (P : task -> Prop) i t ts :
  P t -> Forall P ts -> Forall P (set_task i t ts).
Proof.
  intros Ht Hts. revert i.
  induction Hts as [|t0 ts H0 Hts IH]; intros [|i]; cbn; constructor; auto.
Qed.

Lemma runs_app schedule1 schedule2 st :
  runs (schedule1 ++ schedule2) st = runs schedule2 (runs schedule1 st).
Proof. unfold run. apply fold_left_app. Qed.

Lemma repeat_Created_S n k :
  (k < n)%nat -> repeat Created (n - k) = Created :: repeat Created (n - S k).
Proof. intros Hk. now replace (n - k)%nat with (S (n - S k)) by lia. Qed.

(** The first steps of [k] tasks on the empty map: each starts a fetch. *)
Lemma first_steps n k :
  (k <= n)%nat ->
  runs (seq 0 k) (start n) =
  {| class_map := Dict.empty; fetches := k;
     tasks := map AwaitingListing (seq 0 k) ++ repeat Created (n - k) |}.
Proof.
  induction k as [|k IH]; intros Hk.
  - cbn. now rewrite Nat.sub_0_r.
  - rewrite seq_S, runs_app, IH by lia. cbn [Nat.add run fold_left].
    unfold step. cbn [tasks class_map fetches].
    rewrite repeat_Created_S by lia.
    rewrite nth_error_at by now rewrite length_map, length_seq.
    cbn [Dict.truthy Dict.empty negb].
    rewrite set_task_at by now rewrite length_map, length_seq.
    rewrite map_app, <- app_assoc. reflexivity.
Qed.

(** Once no task is about to test the map, no fetch is started any more. *)
Lemma step_keeps_fetches i st :
  Forall (fun t => t <> Created) (tasks st) ->
  fetches (step E listing i st) = fetches st /\
  Forall (fun t => t <> Created) (tasks (step E listing i st)).
Proof.
  intros Hall. unfold step.
  destruct (nth_error (tasks st) i) as [[|k|m|e]|] eqn:Hnth; try now split.
  - apply nth_error_In in Hnth.
    rewrite Forall_forall in Hall. now destruct (Hall _ Hnth).
  - destruct (result_bind (listing k) (symbol_map_of_listing E));
      cbn [fetches tasks]; (split; [reflexivity|]);
      (apply (set_task_Forall (fun t => t <> Created));
       [discriminate | exact Hall]).
Qed.

Lemma runs_keeps_fetches schedule :
  forall st,
    Forall (fun t => t <> Created) (tasks st) ->
    fetches (runs schedule st) = fetches st.
Proof.
  induction schedule as [|i schedule IH]; intros st Hall; [reflexivity|].
  cbn. destruct (step_keeps_fetches i st Hall) as (Hf & Hall').
  fold (runs schedule (step E listing i st)).
  now rewrite IH.
Qed.

Lemma sequential_S k : sequential (S k) = (sequential k ++ [k; k])%list.
Proof.
  unfold sequential. rewrite seq_S, flat_map_app. cbn.
  reflexivity.
Qed.

(** The tasks one after the other: the first fetches, the others find the
    map. *)
Lemma sequential_run n m :
  result_bind (listing 0%nat) (symbol_map_of_listing E) = Ok m ->
  Dict.truthy m = true ->
  forall k,
    (1 <= k <= n)%nat ->
    runs (sequential k) (start n) =
    {| class_map := m; fetches := 1;
       tasks := repeat (Returned m) k ++ repeat Created (n - k) |}.
Proof.
  intros Hm Hpop.
  induction k as [|k IH]; intros Hk; [lia|].
  destruct k as [|k].
  - destruct n as [|n]; [lia|]. cbn. rewrite Hm. now rewrite Nat.sub_0_r.
  - rewrite sequential_S, runs_app, IH by lia.
    cbn [run fold_left].
    unfold step at 2. cbn [tasks class_map fetches].
    rewrite (repeat_Created_S n (S k)) by lia.
    rewrite nth_error_at by now rewrite repeat_length.
    rewrite Hpop. cbn [negb].
    rewrite set_task_at by now rewrite repeat_length.
    unfold step. cbn [tasks class_map fetches].
    rewrite nth_error_at by now rewrite repeat_length.
    change (repeat (Returned m) (S (S k)))
      with (Returned m :: repeat (Returned m) (S k)).
    rewrite (repeat_cons (S k)), <- app_assoc. reflexivity.
Qed.


End FirstUse.



(** * Further properties of the code *)

(** ** Trading pairs and client order ids *)

Section TradingPairs.
Implicit Types (s base quote : string) (c sep : ascii).

Lemma split_on_free sep s : free_of sep s -> split_on sep s = [s].
Proof.
  unfold free_of. induction s as [|c s IH]; cbn; [reflexivity|].
  intros Hfree. destruct (Ascii.eqb_spec c sep) as [->|Hne]; [tauto|].
  rewrite IH by tauto. reflexivity.
Qed.

Lemma split_on_nonempty sep s : split_on sep s <> [].
Proof.
  destruct s as [|c s]; cbn; [discriminate|].
  destruct (Ascii.eqb c sep); [discriminate|].
  destruct (split_on sep s); discriminate.
Qed.

Lemma split_on_app sep s1 s2 :
  free_of sep s1 ->
  split_on sep (s1 ++ String sep s2) = s1 :: split_on sep s2.
Proof.
  unfold free_of. induction s1 as [|c s1 IH]; cbn.
  - intros _. now rewrite Ascii.eqb_refl.
  - intros Hfree. destruct (Ascii.eqb_spec c sep) as [->|Hne]; [tauto|].
    rewrite IH by tauto. reflexivity.
Qed.

(** One segment only exactly when the separator does not occur. *)
Lemma split_on_single sep s :
  (exists seg, split_on sep s = [seg]) <-> free_of sep s.
Proof.
  split.
  - unfold free_of. induction s as [|c s IH]; cbn; [tauto|].
    destruct (Ascii.eqb_spec c sep) as [->|Hne].
    + intros (seg & H). injection H as _ H.
      now destruct (split_on_nonempty sep s).
    + destruct (split_on sep s) as [|seg0 [|seg1 segs]] eqn:Hs.
      * now destruct (split_on_nonempty sep s).
      * intros _ [Hc|Hin]; [congruence|]. apply IH; eauto.
      * intros (seg & H). discriminate H.
  - intros Hfree. exists s. now apply split_on_free.
Qed.

(** X1. [split_trading_pair] gives [None] exactly on the strings without a
    hyphen; on any other string it gives a pair. *)
Theorem split_trading_pair_none_iff s :
  split_trading_pair s = None <-> free_of "-" s.
Proof.
  rewrite <- split_on_single. unfold split_trading_pair.
  destruct (split_on "-" s) as [|seg0 [|seg1 segs]] eqn:Hs.
  - now destruct (split_on_nonempty "-" s).
  - split; eauto.
  - split; [discriminate|]. intros (seg & H). discriminate H.
Qed.

(** X2. [split_trading_pair] undoes the [f"{base}-{quote}"] by which the symbol
    map names its pairs, up to upper case, when neither ticker has a hyphen. *)
Theorem split_trading_pair_joined base quote :
  free_of "-" base -> free_of "-" quote ->
  split_trading_pair (base ++ "-" ++ quote) = Some (upper base, upper quote).
Proof.
  intros Hbase Hquote. unfold split_trading_pair.
  change (base ++ "-" ++ quote) with (base ++ String "-" quote).
  now rewrite split_on_app, split_on_free.
Qed.

Lemma split_trading_pair_joined_example :
  split_trading_pair ("btc" ++ "-" ++ "USDT") = Some (upper "btc", upper "USDT").
Proof.
  apply split_trading_pair_joined; unfold free_of; cbn; intuition discriminate.
Defined.

Lemma first_and_last_none s : first_and_last s = None <-> s = "".
Proof. destruct s; cbn; split; congruence. Qed.

(** X3. [get_new_client_order_id] raises [IndexError] exactly when the pair has
    no hyphen or when its first or its second segment is empty; where
    [split_trading_pair] answers [None], it raises. *)
Theorem get_new_client_order_id_fails_iff broker_id nonce is_buy s :
  get_new_client_order_id broker_id nonce is_buy s = None <->
  match split_trading_pair s with
  | None => True
  | Some (base, quote) => base = "" \/ quote = ""
  end.
Proof.
  unfold get_new_client_order_id, split_trading_pair.
  destruct (split_on "-" s) as [|seg0 [|seg1 segs]]; try tauto.
  destruct (first_and_last (upper seg0)) as [b|] eqn:Hb.
  - destruct (first_and_last (upper seg1)) as [q|] eqn:Hq.
    + split; [discriminate|].
      intros [H|H]; apply first_and_last_none in H; congruence.
    + apply first_and_last_none in Hq. tauto.
  - apply first_and_last_none in Hb.
    destruct (first_and_last (upper seg1)); tauto.
Qed.

End TradingPairs.

(** ** The retrying REST client, further *)

Section Backoff.
Implicit Types (e : Z) (try_count : Z).

Lemma retry_sleep_time_of_eq e try_count :
  0 <= try_count ->
  (retry_sleep_time_of e try_count ==
   2 + randSleep e * (1 + inject_Z (try_count ^ try_count)))%Q.
Proof.
  intros Htc. unfold retry_sleep_time_of.
  now rewrite <- (Zpower_Qpower try_count try_count Htc).
Qed.

Lemma pow_self_doubles n : 1 <= n -> 2 * n ^ n <= (n + 1) ^ (n + 1).
Proof.
  intros Hn.
  assert (Hpos : 0 < n ^ n) by (apply Z.pow_pos_nonneg; lia).
  assert (Hmono : n ^ n <= (n + 1) ^ n) by (apply Z.pow_le_mono_l; lia).
  rewrite (Z.pow_add_r (n + 1) n 1), Z.pow_1_r by lia. nia.
Qed.



End Backoff.

Section ResponseBodies.
Implicit Types (s raw : string) (n : nat).

Lemma length_append s1 s2 :
  String.length (s1 ++ s2) = (String.length s1 + String.length s2)%nat.
Proof. induction s1; cbn; auto. Qed.

Lemma length_substring_0 n s : (String.length (substring 0 n s) <= n)%nat.
Proof.
  revert s. induction n as [|n IH]; intros [|c s]; cbn; try lia.
  specialize (IH s). lia.
Qed.

Lemma substring_0_all n s :
  (String.length s <= n)%nat -> substring 0 n s = s.
Proof.
  revert s. induction n as [|n IH]; intros [|c s]; cbn; try reflexivity; try lia.
  intros Hlen. rewrite IH by lia. reflexivity.
Qed.

Lemma prefix_append s1 s2 : String.prefix s1 (s1 ++ s2) = true.
Proof.
  induction s1 as [|c s1 IH]; cbn; [now destruct s2|].
  destruct (ascii_dec c c); [exact IH | congruence].
Qed.

Lemma prefix_refl s : String.prefix s s = true.
Proof.
  induction s as [|c s IH]; cbn; [reflexivity|].
  destruct (ascii_dec c c); [exact IH | congruence].
Qed.

(** X5. A body that does not parse as JSON is reported as text, cut to its first
    100 characters and marked when it is longer, so never longer than 116
    characters; the response counts as failed whatever its status. *)
Theorem unparsable_body_report status reason raw :
  exists text,
    aiohttp_response_with_errors
      (HttpResponse status reason (JsonError (Some raw)))
    = Ok {| http_status := Some status; parsed_response := PStr text;
            request_errors := true |} /\
    (String.length text <= 116)%nat /\
    String.prefix (substring 0 100 raw) text = true /\
    ((String.length raw <= 100)%nat -> text = raw).
Proof.
  exists (truncated raw). split; [|split; [|split]].
  - unfold aiohttp_response_with_errors, TempFailure. cbn [is_None py_contains].
    destruct (negb (status_ok status)); [|reflexivity].
    now destruct (str_contains "error" (truncated raw)).
  - unfold truncated. destruct (Nat.ltb_spec 100 (String.length raw)).
    + rewrite length_append. pose proof (length_substring_0 100 raw).
      cbn [String.length]. lia.
    + lia.
  - unfold truncated. destruct (Nat.ltb_spec 100 (String.length raw)).
    + apply prefix_append.
    + rewrite substring_0_all by assumption. apply prefix_refl.
  - intros Hlen. unfold truncated.
    destruct (Nat.ltb_spec 100 (String.length raw)); [lia | reflexivity].
Qed.

End ResponseBodies.

Section RestClientMore.
Variable E : Env.
Implicit Types (w : World) (method endpoint : string)
  (params : option (Dict.t pyval)) (shared_client : option nat)
  (try_count : Z) (info : response_info).

Local Abbreviation MAX := (API_MAX_RETRIES (Constants E)).
Local Abbreviation classify w method endpoint params :=
  (aiohttp_response_with_errors
     (network E (requests w) (build_request E method endpoint params))).

(** The classification of a response raises nothing; only a cancellation
    gets through it. *)
Lemma classification_raises (o : http_outcome) (e : exn) :
  aiohttp_response_with_errors o = Raise e -> e = CancelledError.
Proof.
  destruct o as [| |status reason body]; cbn; try congruence.
  assert (Htemp : forall v, (exists b, TempFailure status v = Ok b) \/
                            TempFailure status v = Raise TypeError).
  { intros v. unfold TempFailure.
    destruct (is_None v); [eauto|].
    destruct (negb (status_ok status)); [|eauto].
    destruct v; cbn; eauto. }
  destruct body as [v|[raw|]];
    match goal with
    | |- context [TempFailure status ?v] =>
        destruct (Htemp v) as [([|] & ->)| ->]; cbn; discriminate
    end.
Qed.

Lemma closes_app tr1 tr2 : closes (tr1 ++ tr2) = (closes tr1 + closes tr2)%nat.
Proof. unfold closes. now rewrite filter_app, length_app. Qed.

(** The world after one attempt, in full. *)
Lemma api_attempt_world method endpoint params shared_client w :
  api_attempt E method endpoint params shared_client w =
  (classify w method endpoint params,
   {| symbol_map := symbol_map w; output := output w;
      requests := S (requests w); draws := draws w;
      trace := trace w ++ EvRequest (build_request E method endpoint params)
               :: match classify w method endpoint params, shared_client with
                  | Ok _, None => [EvClose]
                  | _, _ => []
                  end |}).
Proof.
  unfold api_attempt, bind, send_request.
  destruct (aiohttp_response_with_errors _) as [info|e]; [|reflexivity].
  destruct shared_client; cbn; [reflexivity|].
  now rewrite <- app_assoc.
Qed.

Lemma retry_pause_closes try_count w :
  closes (trace (snd (retry_pause E try_count w))) = closes (trace w).
Proof. cbn -[closes]. rewrite <- app_assoc, closes_app. cbn. lia. Qed.

(** What a call can end in, how many requests it sends and how it treats
    the session, by induction on the retries that are left. *)
Lemma api_call_summary method endpoint params shared_client :
  forall (n : nat) try_count w,
    (Z.to_nat (MAX - try_count) <= n)%nat ->
    let r :=
      fst (api_call_with_retries E method endpoint params shared_client
             try_count w) in
    let w' :=
      snd (api_call_with_retries E method endpoint params shared_client
             try_count w) in
    match r with
    | Ok v => is_None v = false
    | Raise e =>
        e = CancelledError \/ exists error status, e = XeggexAPIError error status
    end /\
    (requests w' <= requests w + Z.to_nat (MAX - try_count) + 1)%nat /\
    (draws w' + requests w + 1 = draws w + requests w')%nat /\
    match shared_client with
    | Some _ => closes (trace w') = closes (trace w)
    | None =>
        (closes (trace w') + requests w + (if cancelled r then 1 else 0)
         = closes (trace w) + requests w')%nat
    end.
Proof.
  induction n as [|n IH]; intros try_count w Hn;
    rewrite api_call_with_retries_body, api_attempt_world;
    (destruct (classify w method endpoint params) as [info|e] eqn:Hclass;
     [destruct (attempt_failed info) eqn:Hfailed;
      [destruct (Z.ltb_spec try_count MAX)|]|]);
    cbn [fst snd requests draws trace];
    try lia.
  - (* retries used up *)
    repeat split; try lia; [eauto|].
    destruct shared_client; rewrite closes_app; cbn; lia.
  - (* success *)
    unfold attempt_failed in Hfailed. apply orb_false_elim in Hfailed.
    repeat split; try lia; [tauto|].
    destruct shared_client; rewrite closes_app; cbn; lia.
  - (* cancelled *)
    apply classification_raises in Hclass. subst e.
    repeat split; try lia; [now left|].
    destruct shared_client; rewrite closes_app; cbn; lia.
  - (* another retry *)
    match goal with
    | |- context [snd (retry_pause E ?tc ?w1)] =>
        pose proof (retry_pause_run E tc w1) as (Hreq & Hdraws & _);
        pose proof (retry_pause_closes tc w1) as Hcloses;
        destruct (IH tc (snd (retry_pause E tc w1)) ltac:(lia))
          as (IHr & IHreq & IHdraws & IHcloses)
    end.
    cbn [requests draws trace] in Hreq, Hdraws, Hcloses.
    rewrite closes_app in Hcloses.
    split; [exact IHr|]. split; [|split].
    + rewrite Hreq in IHreq. cbn [requests] in IHreq. lia.
    + rewrite Hreq, Hdraws in IHdraws. cbn [requests draws] in IHdraws. lia.
    + destruct shared_client; rewrite Hcloses, ?Hreq in IHcloses;
        cbn [requests] in IHcloses; cbn in IHcloses |- *; lia.
  - (* retries used up, second case of the induction *)
    repeat split; try lia; [eauto|].
    destruct shared_client; rewrite closes_app; cbn; lia.
  - unfold attempt_failed in Hfailed. apply orb_false_elim in Hfailed.
    repeat split; try lia; [tauto|].
    destruct shared_client; rewrite closes_app; cbn; lia.
  - apply classification_raises in Hclass. subst e.
    repeat split; try lia; [now left|].
    destruct shared_client; rewrite closes_app; cbn; lia.
Qed.



(** X8. A shared session is never closed by the client.  A session of the call's
    own is closed after every request, except that a cancelled request
    leaves it open. *)
Theorem api_call_sessions method endpoint params shared_client try_count w :
  let r :=
    fst (api_call_with_retries E method endpoint params shared_client
           try_count w) in
  let w' :=
    snd (api_call_with_retries E method endpoint params shared_client
           try_count w) in
  match shared_client with
  | Some _ => closes (trace w') = closes (trace w)
  | None =>
      (closes (trace w') + requests w + (if cancelled r then 1 else 0)
       = closes (trace w) + requests w')%nat
  end.
Proof.
  exact (proj2 (proj2 (proj2
           (api_call_summary method endpoint params shared_client
              _ try_count w (le_n _))))).
Qed.

(** X9. A cancellation is not retried: when the task is cancelled during a
    request, the call raises [CancelledError] at once, without a sleep or a
    further request, and without closing the session. *)
Theorem api_call_cancelled method endpoint params shared_client try_count w :
  network E (requests w) (build_request E method endpoint params)
  = HttpCancelled ->
  api_call_with_retries E method endpoint params shared_client try_count w =
  (Raise CancelledError,
   {| symbol_map := symbol_map w; output := output w;
      requests := S (requests w); draws := draws w;
      trace := trace w ++ [EvRequest (build_request E method endpoint params)]
   |}).
Proof.
  intros Hnet.
  rewrite api_call_with_retries_body, api_attempt_world, Hnet.
  reflexivity.
Qed.


End RestClientMore.

(** The task is cancelled during the first request for a book. *)
Lemma api_call_cancelled_example :
  api_call_with_retries (sample_env (fun _ _ => HttpCancelled)) "get"
    "orderbook" None None 0 initial_world =
  (Raise CancelledError,
   {| symbol_map := []; output := []; requests := 1; draws := 0;
      trace := [EvRequest
                  (build_request (sample_env (fun _ _ => HttpCancelled))
                     "get" "orderbook" None)] |}).
Proof.
  apply (api_call_cancelled (sample_env (fun _ _ => HttpCancelled)) "get"
           "orderbook" None None 0 initial_world).
  reflexivity.
Defined.


(** ** The symbol registry, further *)

Section RegistryMore.
Variable E : Env.
Implicit Types (w : World) (m : Dict.t string) (p s symbol : string)
  (items : list pyval) (entries : list (string * string)).

Local Abbreviation MAX := (API_MAX_RETRIES (Constants E)).

Lemma get_app {V} (d1 d2 : Dict.t V) k :
  Dict.get k (d1 ++ d2)%list =
  match Dict.get k d1 with
  | Some v => Some v
  | None => Dict.get k d2
  end.
Proof.
  induction d1 as [|[k' v'] d1 IH]; cbn; [reflexivity|].
  now destruct (String.eqb k' k).
Qed.

Lemma result_map_app {A B} (f : A -> result B) (l1 l2 : list A) :
  result_map f (l1 ++ l2)%list =
  (let? ys1 := result_map f l1 in
   let? ys2 := result_map f l2 in
   Ok (ys1 ++ ys2)%list).
Proof.
  induction l1 as [|x l1 IH]; cbn.
  - now destruct (result_map f l2).
  - destruct (f x); cbn; [|reflexivity].
    rewrite IH. destruct (result_map f l1); cbn; [|reflexivity].
    now destruct (result_map f l2).
Qed.

Lemma result_map_keys items entries s :
  result_map (symbol_entry E) items = Ok entries ->
  (forall d s' p', In d items -> symbol_entry E d = Ok (s', p') -> s' <> s) ->
  Dict.get s (rev entries) = None.
Proof.
  revert entries. induction items as [|d items IH]; cbn; intros entries.
  - intros [= <-] _. reflexivity.
  - destruct (symbol_entry E d) as [[s' p']|] eqn:Hd; cbn; [|discriminate].
    destruct (result_map (symbol_entry E) items) as [rest|]; cbn;
      [|discriminate].
    intros [= <-] Hother. cbn. rewrite get_app, (IH rest).
    + cbn. destruct (String.eqb_spec s' s) as [->|]; [|reflexivity].
      now destruct (Hother d s p' (or_introl eq_refl) Hd).
    + reflexivity.
    + intros d' s0 p0 Hin. apply Hother. now right.
Qed.

(** The map that a successful initialization stores is a dict. *)
Lemma init_trading_pair_symbols_wf shared_session w w' :
  init_trading_pair_symbols E shared_session w = (Ok tt, w') ->
  Dict.wf (symbol_map w').
Proof.
  unfold init_trading_pair_symbols, bind, lift, set_symbol_map.
  destruct (api_call_with_retries _ _ _ _ _ _ _) as [[symbols|e] w1];
    [|discriminate].
  destruct (symbol_map_of_listing E symbols) as [m|e] eqn:Hm; [|discriminate].
  intros [= <-]. now apply (symbol_map_of_listing_wf E symbols).
Qed.


(** X12. When the listing names a symbol more than once, its last entry decides
    the pair of the symbol. *)
Theorem listing_last_entry_wins items1 d items2 s p m :
  symbol_entry E d = Ok (s, p) ->
  (forall d' s' p',
      In d' items2 -> symbol_entry E d' = Ok (s', p') -> s' <> s) ->
  symbol_map_of_listing E (PList (items1 ++ d :: items2)%list) = Ok m ->
  Dict.get s m = Some p.
Proof.
  intros Hd Hlater. unfold symbol_map_of_listing. cbn [py_iter result_bind].
  rewrite result_map_app.
  destruct (result_map (symbol_entry E) items1) as [entries1|]; cbn;
    [|discriminate].
  rewrite Hd. cbn.
  destruct (result_map (symbol_entry E) items2) as [entries2|] eqn:H2; cbn;
    [|discriminate].
  intros [= <-]. unfold Dict.of_items. rewrite get_update.
  rewrite rev_app_distr, get_app. cbn [rev].
  rewrite get_app, (result_map_keys items2 entries2 s H2 Hlater).
  cbn. now rewrite String.eqb_refl.
Qed.


(** X14. The map is fetched once: after a call of [trading_pair_symbol_map] has
    returned a map that is not empty, the next call returns the same map
    and sends nothing. *)
Theorem symbol_map_fetched_once w m w1 :
  trading_pair_symbol_map E w = (Ok m, w1) ->
  Dict.truthy m = true ->
  symbol_map w1 = m /\ trading_pair_symbol_map E w1 = (Ok m, w1).
Proof.
  intros Hcall Hpop.
  assert (Hm : symbol_map w1 = m).
  { revert Hcall. unfold trading_pair_symbol_map, bind, get_symbol_map.
    destruct (negb (Dict.truthy (symbol_map w))).
    - destruct (init_trading_pair_symbols E None w) as [[[]|e] w2];
        [|discriminate].
      now intros [= <- <-].
    - cbn. now intros [= <- <-]. }
  split; [exact Hm|].
  rewrite trading_pair_symbol_map_populated by now rewrite Hm.
  now rewrite Hm.
Qed.

(** X15. An exchange that lists no instrument is asked again each time: the map
    stays empty after the fetch, and the lookup of any pair fails with
    [ValueError]. *)
Theorem empty_listing_is_not_kept w reason p :
  Dict.truthy (symbol_map w) = false ->
  network E (requests w)
    (build_request E "GET" (ENDPOINT_SYMBOL (Constants E)) None)
  = HttpResponse 200 reason (JsonOk (PList [])) ->
  exists w1,
    trading_pair_symbol_map E w = (Ok [], w1) /\
    symbol_map w1 = [] /\
    requests w1 = S (requests w) /\
    exchange_symbol_associated_to_pair E p w =
    (Raise (ValueError ("There is no symbol mapping for trading pair " ++ p)),
     w1).
Proof.
  intros Hempty Hnet.
  assert (Hcall : exists w1,
             trading_pair_symbol_map E w = (Ok [], w1) /\
             symbol_map w1 = [] /\ requests w1 = S (requests w)).
  { unfold trading_pair_symbol_map, init_trading_pair_symbols, bind,
      get_symbol_map, lift, set_symbol_map.
    rewrite Hempty. cbn [negb].
    rewrite api_call_with_retries_body.
    destruct (api_attempt_run E "GET" (ENDPOINT_SYMBOL (Constants E)) None
                None w) as (w1 & -> & Hreq & _).
    rewrite Hnet. cbn. eexists. repeat split. exact Hreq. }
  destruct Hcall as (w1 & Hcall & Hmap & Hreq).
  exists w1. repeat split; try assumption.
  unfold exchange_symbol_associated_to_pair, bind. now rewrite Hcall.
Qed.

Lemma symbols_of_pair_first p m s rest :
  symbols_of_pair p m = s :: rest ->
  exists before after,
    m = (before ++ (s, p) :: after)%list /\
    forall item, In item before -> snd item <> p.
Proof.
  unfold symbols_of_pair.
  induction m as [|[s0 p0] m IH]; cbn; [discriminate|].
  destruct (String.eqb_spec p0 p) as [->|Hne]; cbn.
  - intros [= -> _]. exists [], m. split; [reflexivity | intros item []].
  - intros H. destruct (IH H) as (before & after & -> & Hbefore).
    exists ((s0, p0) :: before), after. split; [reflexivity|].
    intros item [<-|Hin]; [exact Hne | auto].
Qed.

Lemma symbols_of_pair_none p m :
  symbols_of_pair p m = [] -> ~ In p (Dict.values m).
Proof.
  intros Hnone Hin. now apply (symbols_of_pair_nonempty p m).
Qed.

(** X16. On a populated map the lookup of a pair reads only.  It returns the
    first symbol, in the order of the listing, that is mapped to the pair,
    and raises [ValueError] when the pair is not among the values. *)
Theorem exchange_symbol_is_first_match w p :
  Dict.truthy (symbol_map w) = true ->
  snd (exchange_symbol_associated_to_pair E p w) = w /\
  match fst (exchange_symbol_associated_to_pair E p w) with
  | Ok s =>
      exists before after,
        symbol_map w = (before ++ (s, p) :: after)%list /\
        forall item, In item before -> snd item <> p
  | Raise e =>
      e = ValueError ("There is no symbol mapping for trading pair " ++ p) /\
      ~ In p (Dict.values (symbol_map w))
  end.
Proof.
  intros Hpop. unfold exchange_symbol_associated_to_pair, bind.
  rewrite trading_pair_symbol_map_populated by assumption.
  destruct (symbols_of_pair p (symbol_map w)) as [|s rest] eqn:Hsyms; cbn.
  - split; [reflexivity|]. split; [reflexivity|].
    now apply symbols_of_pair_none.
  - split; [reflexivity|]. now apply (symbols_of_pair_first p _ s rest).
Qed.

Lemma trading_pair_symbol_map_wf w m w1 :
  Dict.wf (symbol_map w) ->
  trading_pair_symbol_map E w = (Ok m, w1) ->
  symbol_map w1 = m /\ Dict.wf m.
Proof.
  intros Hwf. unfold trading_pair_symbol_map, bind, get_symbol_map.
  destruct (negb (Dict.truthy (symbol_map w))).
  - destruct (init_trading_pair_symbols E None w) as [[[]|e] w2] eqn:Hinit;
      [|discriminate].
    intros [= <- <-]. split; [reflexivity|].
    now apply (init_trading_pair_symbols_wf None w).
  - cbn. intros [= <- <-]. now split.
Qed.

(** X17. [fetch_trading_pairs] gives one pair for each listed symbol, and every
    pair it gives can be resolved to a symbol and back, without a further
    request. *)
Theorem fetch_trading_pairs_resolve w pairs w1 :
  Dict.wf (symbol_map w) ->
  fetch_trading_pairs E w = (Ok pairs, w1) ->
  List.length pairs = List.length (symbol_map w1) /\
  forall p,
    In p pairs ->
    exists s,
      exchange_symbol_associated_to_pair E p w1 = (Ok s, w1) /\
      trading_pair_associated_to_exchange_symbol E s w1 = (Ok p, w1).
Proof.
  intros Hwf. unfold fetch_trading_pairs, bind.
  destruct (trading_pair_symbol_map E w) as [[m|e] w2] eqn:Hcall;
    [|discriminate].
  cbn. intros [= <- <-].
  destruct (trading_pair_symbol_map_wf w m w2 Hwf Hcall) as (Hm & Hwfm).
  split; [rewrite Hm; apply length_map|].
  intros p Hin.
  assert (Hpop : Dict.truthy (symbol_map w2) = true).
  { rewrite Hm. destruct m; [destruct Hin | reflexivity]. }
  pose proof (symbols_of_pair_nonempty p m Hin) as Hne.
  destruct (symbols_of_pair p m) as [|s rest] eqn:Hsyms; [congruence|].
  pose proof (in_get_wf _ _ _ Hwfm (symbols_of_pair_head _ _ _ _ Hsyms)) as Hget.
  exists s. split.
  - unfold exchange_symbol_associated_to_pair, bind.
    now rewrite trading_pair_symbol_map_populated, Hm, Hsyms.
  - unfold trading_pair_associated_to_exchange_symbol, bind.
    now rewrite trading_pair_symbol_map_populated, Hm, Hget.
Qed.


(** X19. A pair that is not listed: on a populated map [get_order_book_data]
    raises [ValueError] and sends no request. *)
Theorem get_order_book_data_unknown_pair w p :
  Dict.truthy (symbol_map w) = true ->
  ~ In p (Dict.values (symbol_map w)) ->
  get_order_book_data E p w =
  (Raise (ValueError ("There is no symbol mapping for trading pair " ++ p)), w).
Proof.
  intros Hpop Hnot.
  unfold get_order_book_data, exchange_symbol_associated_to_pair, bind.
  rewrite trading_pair_symbol_map_populated by assumption.
  destruct (symbols_of_pair p (symbol_map w)) as [|s rest] eqn:Hsyms;
    [reflexivity|].
  destruct Hnot. apply symbols_of_pair_head in Hsyms.
  unfold Dict.values. change p with (snd (s, p)). now apply in_map.
Qed.

End RegistryMore.

(** A listing that names BTCUSDT twice. *)
Lemma listing_last_entry_wins_example :
  exists m,
    symbol_map_of_listing (sample_env sample_exchange)
      (PList [instrument "BTCUSDT" "XBT" "USDT";
              instrument "BTCUSDT" "BTC" "USDT";
              instrument "ETH/USDT" "ETH" "USDT"]) = Ok m /\
    Dict.get "BTCUSDT" m = Some "BTC-USDT".
Proof.
  eexists. split; [vm_compute; reflexivity|].
  apply (listing_last_entry_wins (sample_env sample_exchange)
           [instrument "BTCUSDT" "XBT" "USDT"]
           (instrument "BTCUSDT" "BTC" "USDT")
           [instrument "ETH/USDT" "ETH" "USDT"] "BTCUSDT" "BTC-USDT").
  - reflexivity.
  - intros d' s' p' [<-|[]] H. vm_compute in H. injection H as <- _.
    discriminate.
  - vm_compute. reflexivity.
Defined.


Lemma symbol_map_fetched_once_example :
  exists m w1,
    trading_pair_symbol_map (sample_env sample_exchange) initial_world
    = (Ok m, w1) /\
    symbol_map w1 = m /\
    trading_pair_symbol_map (sample_env sample_exchange) w1 = (Ok m, w1).
Proof.
  eexists. eexists. split; [vm_compute; reflexivity|].
  apply (symbol_map_fetched_once (sample_env sample_exchange) initial_world).
  - vm_compute. reflexivity.
  - reflexivity.
Defined.

Lemma empty_listing_is_not_kept_example :
  let E := sample_env (fun _ _ => HttpResponse 200 (PStr "OK") (JsonOk (PList []))) in
  exists w1,
    trading_pair_symbol_map E initial_world = (Ok [], w1) /\
    symbol_map w1 = [] /\
    requests w1 = 1%nat /\
    exchange_symbol_associated_to_pair E "BTC-USDT" initial_world =
    (Raise (ValueError "There is no symbol mapping for trading pair BTC-USDT"),
     w1).
Proof.
  intros E.
  exact (empty_listing_is_not_kept E initial_world (PStr "OK") "BTC-USDT"
           eq_refl eq_refl).
Defined.

(** BTC-USDT has two symbols in the sample listing; the first is taken. *)
Lemma exchange_symbol_is_first_match_example :
  let E := sample_env sample_exchange in
  let w := snd (trading_pair_symbol_map E initial_world) in
  snd (exchange_symbol_associated_to_pair E "BTC-USDT" w) = w /\
  match fst (exchange_symbol_associated_to_pair E "BTC-USDT" w) with
  | Ok s =>
      exists before after,
        symbol_map w = (before ++ (s, "BTC-USDT") :: after)%list /\
        forall item, In item before -> snd item <> "BTC-USDT"
  | Raise e =>
      e = ValueError ("There is no symbol mapping for trading pair "
                      ++ "BTC-USDT") /\
      ~ In "BTC-USDT" (Dict.values (symbol_map w))
  end.
Proof.
  intros E w.
  apply (exchange_symbol_is_first_match E w "BTC-USDT"). reflexivity.
Defined.

Lemma fetch_trading_pairs_resolve_example :
  let E := sample_env sample_exchange in
  exists pairs w1,
    fetch_trading_pairs E initial_world = (Ok pairs, w1) /\
    List.length pairs = List.length (symbol_map w1) /\
    forall p,
      In p pairs ->
      exists s,
        exchange_symbol_associated_to_pair E p w1 = (Ok s, w1) /\
        trading_pair_associated_to_exchange_symbol E s w1 = (Ok p, w1).
Proof.
  intros E. eexists. eexists. split; [vm_compute; reflexivity|].
  apply (fetch_trading_pairs_resolve E initial_world).
  - constructor.
  - vm_compute. reflexivity.
Defined.


Lemma get_order_book_data_unknown_pair_example :
  let w := {| symbol_map := [("BTCUSDT", "BTC-USDT")]; output := [];
              requests := 0; draws := 0; trace := [] |} in
  get_order_book_data (sample_env sample_exchange) "DOGE-USDT" w =
  (Raise (ValueError "There is no symbol mapping for trading pair DOGE-USDT"),
   w).
Proof.
  intros w.
  apply (get_order_book_data_unknown_pair (sample_env sample_exchange) w
           "DOGE-USDT").
  - reflexivity.
  - cbn. intros [H|[]]. discriminate H.
Defined.

(** ** The message normalizers, further *)

Section NormalizersMore.
Implicit Types (raw md : Dict.t pyval) (ts : pyval) (k : string)
  (metadata : option (Dict.t pyval)).

Lemma set_keeps_keys {V} (d : Dict.t V) k k' (v : V) :
  Dict.get k d <> None -> Dict.get k (Dict.set k' v d) <> None.
Proof.
  intros Hk. rewrite get_set. now destruct (String.eqb k' k).
Qed.

Lemma update_keeps_keys {V} (d o : Dict.t V) k :
  Dict.get k d <> None -> Dict.get k (Dict.update d o) <> None.
Proof.
  unfold Dict.update. revert d.
  induction o as [|[k' v'] o IH]; intros d Hk; cbn; [assumption|].
  apply IH. now apply set_keeps_keys.
Qed.

Lemma merge_metadata_keeps raw metadata :
  (forall k, Dict.get k raw <> None ->
             Dict.get k (merge_metadata raw metadata) <> None) /\
  (Dict.wf raw -> Dict.wf (merge_metadata raw metadata)).
Proof.
  unfold merge_metadata. destruct metadata as [md|]; [|tauto].
  destruct (Dict.truthy md); [|tauto].
  split; [intros k; apply update_keeps_keys | apply update_wf].
Qed.

(** X20. No normalizer drops a key of the payload, and the content of the
    message is a dict again (no key twice) when the payload is one. *)
Theorem normalizers_keep_keys raw ts metadata :
  let contents :=
    [content (snapshot_message_from_exchange raw ts metadata);
     content (diff_message_from_exchange raw ts metadata);
     content (trade_message_from_exchange raw ts metadata)] in
  forall c,
    In c contents ->
    (forall k, Dict.get k raw <> None -> Dict.get k c <> None) /\
    (Dict.wf raw -> Dict.wf c).
Proof.
  intros contents c Hin.
  destruct (merge_metadata_keeps raw metadata) as (Hkeys & Hwf).
  unfold contents in Hin. cbn [In] in Hin.
  destruct Hin as [<-|[<-|[<-|[]]]];
    unfold snapshot_message_from_exchange, diff_message_from_exchange,
      trade_message_from_exchange; cbn [content];
    try (split; assumption).
  split.
  - intros k Hk. apply update_keeps_keys. auto.
  - intros Hraw. apply update_wf. auto.
Qed.

Lemma normalizers_keep_keys_example :
  let raw := [("id", PInt 42); ("price", PStr "100.5")] in
  let c := content (trade_message_from_exchange raw PNone
                      (Some [("trading_pair", PStr "BTC-USDT")])) in
  (forall k, Dict.get k raw <> None -> Dict.get k c <> None) /\
  (Dict.wf raw -> Dict.wf c).
Proof.
  intros raw c.
  apply (normalizers_keep_keys raw PNone
           (Some [("trading_pair", PStr "BTC-USDT")]) c).
  right. right. left. reflexivity.
Defined.

Lemma canonical_source_cases k src :
  canonical_source k = Some src ->
  (k = "exchange_order_id" /\ src = "id") \/
  (k = "trade_type" /\ src = "side") \/
  (k = "price" /\ src = "price") \/
  (k = "amount" /\ src = "quantity").
Proof.
  unfold canonical_source.
  destruct (String.eqb_spec k "exchange_order_id"); [intros [= <-]; tauto|].
  destruct (String.eqb_spec k "trade_type"); [intros [= <-]; tauto|].
  destruct (String.eqb_spec k "price"); [intros [= <-]; tauto|].
  destruct (String.eqb_spec k "amount"); [intros [= <-]; tauto|].
  discriminate.
Qed.

(** X21. The trade normalizer changes its argument in place; to normalize the
    content of a trade message once more, with the same metadata, changes
    no binding of it. *)
Theorem trade_message_normalized_twice raw ts ts' md k :
  Dict.wf md ->
  Dict.get k
    (content (trade_message_from_exchange
                (content (trade_message_from_exchange raw ts (Some md)))
                ts' (Some md)))
  = Dict.get k (content (trade_message_from_exchange raw ts (Some md))).
Proof.
  intros Hwf. unfold trade_message_from_exchange. cbn [content].
  set (merged := merge_metadata raw (Some md)).
  set (once := Dict.update merged (canonical_trade_fields merged)).
  set (again := merge_metadata once (Some md)).
  assert (Hmerged : forall k', Dict.get k' merged = merged_lookup raw md k')
    by (intros k'; now apply get_merge_metadata).
  assert (Hagain : forall k', Dict.get k' again = merged_lookup once md k')
    by (intros k'; now apply get_merge_metadata).
  assert (Honce : forall k',
             Dict.get k' once =
             match canonical_source k' with
             | Some src => Some (py_get src merged)
             | None => Dict.get k' merged
             end)
    by (intros k'; apply get_remapped).
  clearbody merged once again.
  assert (Hsrc : forall src,
             In src ["id"; "side"; "price"; "quantity"] ->
             py_get src again = py_get src merged).
  { intros src Hin. unfold py_get at 1. rewrite Hagain. unfold merged_lookup.
    destruct (Dict.get src md) as [v|] eqn:Hmd.
    - unfold py_get. rewrite Hmerged. unfold merged_lookup. now rewrite Hmd.
    - rewrite Honce.
      cbn [In] in Hin. destruct Hin as [<-|[<-|[<-|[<-|[]]]]];
        reflexivity. }
  rewrite get_remapped, Honce.
  destruct (canonical_source k) as [src|] eqn:Hk.
  - f_equal. apply Hsrc.
    destruct (canonical_source_cases k src Hk)
      as [(_ & ->)|[(_ & ->)|[(_ & ->)|(_ & ->)]]]; cbn; tauto.
  - rewrite Hagain. unfold merged_lookup. rewrite Honce, Hk, Hmerged.
    unfold merged_lookup. now destruct (Dict.get k md).
Qed.

Lemma trade_message_normalized_twice_example :
  Dict.get "exchange_order_id"
    (content (trade_message_from_exchange
                (content (trade_message_from_exchange
                            [("id", PInt 42); ("side", PStr "buy")] PNone
                            (Some [("exchange_order_id", PInt 7)])))
                PNone (Some [("exchange_order_id", PInt 7)])))
  = Dict.get "exchange_order_id"
      (content (trade_message_from_exchange
                  [("id", PInt 42); ("side", PStr "buy")] PNone
                  (Some [("exchange_order_id", PInt 7)]))).
Proof.
  apply trade_message_normalized_twice.
  apply (of_items_wf [("exchange_order_id", PInt 7)]).
Defined.

End NormalizersMore.

(** ** The REST-snapshot poller, further *)

Section PollerMore.
Variable E : Env.
Implicit Types (w : World) (p : string) (pairs : list string)
  (msg : XeggexOrderBookMessage).

(** What a message of the poller looks like. *)
Lemma snapshot_message_of_ok p snapshot msg :
  snapshot_message_of p snapshot = Ok msg ->
  message_type msg = SNAPSHOT /\
  Dict.get "trading_pair" (content msg) = Some (PStr p) /\
  Dict.get "timestamp" (content msg) = Some (timestamp msg).
Proof.
  unfold snapshot_message_of, result_bind, subscript.
  destruct snapshot as [| | | | | |d]; try discriminate.
  destruct (Dict.get "timestamp" d) as [ts|] eqn:Hts; [|discriminate].
  intros [= <-]. unfold snapshot_message_from_exchange.
  cbn [message_type content timestamp merge_metadata Dict.truthy].
  repeat split.
  - now rewrite get_update.
  - rewrite get_update. cbn. exact Hts.
Qed.

(** X22. A cycle puts at most one message per configured pair on the queue; each
    is a SNAPSHOT message tagged with one of the configured pairs and stamped
    with the ["timestamp"] entry of its own content. *)
Theorem poll_trading_pairs_messages pairs :
  forall w,
  exists msgs,
    output (snd (poll_trading_pairs E pairs w)) = (output w ++ msgs)%list /\
    (List.length msgs <= List.length pairs)%nat /\
    Forall (fun msg =>
              message_type msg = SNAPSHOT /\
              Dict.get "timestamp" (content msg) = Some (timestamp msg) /\
              exists p, In p pairs /\
                        Dict.get "trading_pair" (content msg) = Some (PStr p))
           msgs.
Proof.
  unfold poll_trading_pairs.
  induction pairs as [|p pairs IH]; intros w; cbn [for_each].
  - exists []. cbn. rewrite app_nil_r. repeat split; [lia | constructor].
  - unfold bind. pose proof (poll_trading_pair_output E p w) as Hp.
    assert (Hdue : exists due,
               snapshot_due E p w = due /\ (List.length due <= 1)%nat /\
               Forall (fun msg =>
                         message_type msg = SNAPSHOT /\
                         Dict.get "timestamp" (content msg)
                         = Some (timestamp msg) /\
                         Dict.get "trading_pair" (content msg)
                         = Some (PStr p)) due).
    { eexists. split; [reflexivity|]. unfold snapshot_due.
      destruct (get_order_book_data E p w) as [[snapshot|e] w0];
        [|split; [cbn; lia | constructor]].
      destruct (snapshot_message_of p snapshot) as [msg|e] eqn:Hmsg;
        [|split; [cbn; lia | constructor]].
      destruct (snapshot_message_of_ok p snapshot msg Hmsg)
        as (Htype & Hpair & Hts).
      split; [cbn; lia|]. repeat constructor; assumption. }
    destruct Hdue as (due & Hdue & Hlen & Hall). rewrite Hdue in Hp.
    assert (Hall' : Forall (fun msg =>
                         message_type msg = SNAPSHOT /\
                         Dict.get "timestamp" (content msg)
                         = Some (timestamp msg) /\
                         exists p0, In p0 (p :: pairs) /\
                                    Dict.get "trading_pair" (content msg)
                                    = Some (PStr p0)) due).
    { eapply Forall_impl; [|exact Hall].
      intros msg (Htype & Hts & Hpair). repeat split; try assumption.
      exists p. split; [now left | assumption]. }
    destruct (poll_trading_pair E p w) as [[[]|e] w1]; cbn [snd] in *.
    + destruct (IH w1) as (msgs & Hout & Hlen' & Hmsgs).
      exists (due ++ msgs)%list. rewrite Hout, Hp, <- app_assoc.
      split; [reflexivity|]. split; [rewrite length_app; cbn; lia|].
      apply Forall_app. split; [exact Hall'|].
      eapply Forall_impl; [|exact Hmsgs].
      intros msg (Htype & Hts & p0 & Hin & Hpair). repeat split; try assumption.
      exists p0. split; [now right | assumption].
    + exists due. split; [exact Hp|]. split; [cbn; lia | exact Hall'].
Qed.

(** X23. Rate limit: whether the snapshot of a pair was fetched or not, the
    poller sleeps 5 seconds before it goes on, unless it is cancelled. *)
Theorem poll_trading_pair_paces p w w' :
  poll_trading_pair E p w = (Ok tt, w') ->
  exists tr, trace w' = (tr ++ [EvSleep 5])%list.
Proof.
  unfold poll_trading_pair, try_except, bind, lift, put_nowait, sleep, emit.
  destruct (get_order_book_data E p w) as [[snapshot|e] w1].
  - destruct (snapshot_message_of p snapshot) as [msg|e]; cbn.
    + intros [= <-]. cbn. eauto.
    + destruct (is_Exception e); [|discriminate].
      intros [= <-]. cbn. eauto.
  - destruct (is_Exception e); [|discriminate].
    intros [= <-]. cbn. eauto.
Qed.

End PollerMore.

Lemma poll_trading_pair_paces_example :
  exists tr,
    trace (snd (poll_trading_pair (sample_env sample_exchange) "ETH-USDT"
                  initial_world)) = (tr ++ [EvSleep 5])%list.
Proof.
  apply (poll_trading_pair_paces (sample_env sample_exchange) "ETH-USDT"
           initial_world).
  vm_compute. reflexivity.
Defined.

(** ** The websocket listeners *)

Section Listeners.
Variable E : Env.
Variable W : WsEnv.
Implicit Types (w : World) (response trade : pyval) (m : Dict.t string)
  (msg : XeggexOrderBookMessage) (trading_pair : string).

Lemma symbol_value_listed w symbol trading_pair :
  Dict.truthy (symbol_map w) = true ->
  Dict.get symbol (symbol_map w) = Some trading_pair ->
  trading_pair_of_symbol_value E (PStr symbol) w = (Ok trading_pair, w).
Proof.
  intros Hpop Hget.
  unfold trading_pair_of_symbol_value,
    trading_pair_associated_to_exchange_symbol, bind.
  now rewrite trading_pair_symbol_map_populated, Hget.
Qed.

Lemma on_order_book_response_due response due w :
  Dict.truthy (symbol_map w) = true ->
  book_response_due W (symbol_map w) response due ->
  exists w',
    on_order_book_response E W response w = (Ok tt, w') /\
    output w' = (output w ++ due)%list /\
    symbol_map w' = symbol_map w /\ requests w' = requests w.
Proof.
  intros Hpop (r & -> & [(-> & Hskip)|Hdue]);
    unfold on_order_book_response, bind, lift; cbn [attr_get].
  - exists w. rewrite app_nil_r. split; [|tauto].
    destruct Hskip as [->|(-> & ->)]; [reflexivity|].
    cbn. now rewrite orb_true_r.
  - destruct Hdue as (params & date & ts & symbol & trading_pair & Hparams
                      & Hmethod & Hdate & Hts & Hsymbol & Hpair & ->).
    assert (Hpg : py_get "params" r = PDict params)
      by (unfold py_get; now rewrite Hparams).
    rewrite !Hpg. cbn [is_None orb].
    replace (py_is_str (py_get "method" r) (WS_ORDERS_SNAPSHOT W)
             || py_is_str (py_get "method" r) (WS_ORDERS_UPDATE W))
      with true by (destruct Hmethod as [-> | ->];
                    now rewrite ?orb_true_r).
    cbn [negb subscript]. rewrite Hdate, Hts, Hsymbol.
    rewrite (symbol_value_listed w symbol trading_pair Hpop Hpair).
    destruct (py_is_str (py_get "method" r) (WS_ORDERS_UPDATE W));
      eexists; (split; [reflexivity|]); cbn; tauto.
Qed.

(** X24. Order-book messages are passed on in the order of their arrival: over a
    populated symbol map, a run of messages that are each to be skipped or
    well-formed puts on the queue, one behind the other, exactly the
    messages due for them, a DIFF for an update and a SNAPSHOT for a
    snapshot, and does nothing else: no request, no change of the map. *)
Theorem order_book_stream_in_order responses dues w :
  Dict.truthy (symbol_map w) = true ->
  Forall2 (book_response_due W (symbol_map w)) responses dues ->
  exists w',
    on_order_book_stream E W responses w = (Ok tt, w') /\
    output w' = (output w ++ List.concat dues)%list /\
    symbol_map w' = symbol_map w /\ requests w' = requests w.
Proof.
  unfold on_order_book_stream. intros Hpop Hall.
  assert (Hrun : forall m,
             Dict.truthy m = true ->
             Forall2 (book_response_due W m) responses dues ->
             forall w0,
               symbol_map w0 = m ->
               exists w',
                 for_each responses (on_order_book_response E W) w0
                 = (Ok tt, w') /\
                 output w' = (output w0 ++ List.concat dues)%list /\
                 symbol_map w' = m /\ requests w' = requests w0).
  { clear w Hpop Hall. intros m Hpop Hall.
    induction Hall as [|response due responses dues Hdue Hall IH];
      intros w0 Hm; cbn [for_each List.concat].
    - exists w0. rewrite app_nil_r. repeat split. exact Hm.
    - unfold bind. subst m.
      destruct (on_order_book_response_due response due w0 Hpop Hdue)
        as (w1 & -> & Hout1 & Hmap1 & Hreq1).
      destruct (IH w1 Hmap1) as (w' & Hrun & Hout & Hmap & Hreq).
      exists w'. split; [exact Hrun|].
      rewrite Hout, Hout1, Hreq, <- app_assoc. repeat split; congruence. }
  exact (Hrun (symbol_map w) Hpop Hall w eq_refl).
Qed.

Lemma on_trade_due trading_pair trade msg w :
  trade_due W trading_pair trade msg ->
  exists w',
    on_trade W trading_pair trade w = (Ok tt, w') /\
    output w' = (output w ++ [msg])%list /\
    symbol_map w' = symbol_map w /\ requests w' = requests w.
Proof.
  intros (d & date & ts & -> & Hdate & Hts & ->).
  unfold on_trade, bind, lift. cbn [subscript]. rewrite Hdate, Hts.
  eexists. split; [reflexivity|]. cbn. tauto.
Qed.

Lemma on_trades_due trading_pair trades msgs :
  Forall2 (trade_due W trading_pair) trades msgs ->
  forall w (rest : list pyval),
  exists w1,
    output w1 = (output w ++ msgs)%list /\
    symbol_map w1 = symbol_map w /\ requests w1 = requests w /\
    for_each (trades ++ rest) (on_trade W trading_pair) w =
    for_each rest (on_trade W trading_pair) w1.
Proof.
  induction 1 as [|trade msg trades msgs Hdue Hall IH]; intros w rest.
  - exists w. rewrite app_nil_r. repeat split.
  - cbn [app for_each]. unfold bind at 1.
    destruct (on_trade_due trading_pair trade msg w Hdue)
      as (w0 & -> & Hout0 & Hmap0 & Hreq0).
    destruct (IH w0 rest) as (w1 & Hout1 & Hmap1 & Hreq1 & Hrun).
    exists w1. rewrite Hout1, Hout0, <- app_assoc.
    repeat split; congruence.
Qed.

Lemma on_trades_response_header response trading_pair trades w :
  Dict.truthy (symbol_map w) = true ->
  trades_response W (symbol_map w) response trading_pair trades ->
  on_trades_response E W response w =
  for_each trades (on_trade W trading_pair) w.
Proof.
  intros Hpop (r & params & symbol & -> & Hmethod & Hparams & Hsymbol & Hpair
               & Hdata).
  unfold on_trades_response, bind, lift. cbn [attr_get].
  assert (Hpg : py_get "params" r = PDict params)
    by (unfold py_get; now rewrite Hparams).
  rewrite Hmethod, !Hpg.
  cbn [is_None orb negb subscript]. rewrite Hparams.
  cbn [subscript]. rewrite Hsymbol.
  rewrite (symbol_value_listed w symbol trading_pair Hpop Hpair).
  rewrite Hdata. reflexivity.
Qed.

(** X25. A message of the trade channel with well-formed trades puts one TRADE
    message per trade on the queue, in the order of the trades, and does
    nothing else. *)
Theorem trades_response_pushes_all response trading_pair trades msgs w :
  Dict.truthy (symbol_map w) = true ->
  trades_response W (symbol_map w) response trading_pair trades ->
  Forall2 (trade_due W trading_pair) trades msgs ->
  exists w',
    on_trades_response E W response w = (Ok tt, w') /\
    output w' = (output w ++ msgs)%list /\
    symbol_map w' = symbol_map w /\ requests w' = requests w /\
    Forall (fun msg => message_type msg = TRADE) msgs.
Proof.
  intros Hpop Hresponse Hall.
  rewrite (on_trades_response_header _ _ _ _ Hpop Hresponse).
  destruct (on_trades_due trading_pair trades msgs Hall w [])
    as (w1 & Hout & Hmap & Hreq & Hrun).
  rewrite app_nil_r in Hrun. rewrite Hrun. cbn [for_each].
  exists w1. repeat split; try assumption.
  clear -Hall. induction Hall as [|trade msg trades msgs Hdue Hall IH];
    constructor; [|exact IH].
  destruct Hdue as (d & date & ts & _ & _ & _ & ->). reflexivity.
Qed.

(** X26. When a trade of the message has no timestamp, the listener raises
    [KeyError] and gives up the message, but the trades before it are on the
    queue already. *)
Theorem trades_pushed_until_failure response trading_pair good d later msgs w :
  Dict.truthy (symbol_map w) = true ->
  trades_response W (symbol_map w) response trading_pair
    (good ++ PDict d :: later)%list ->
  Forall2 (trade_due W trading_pair) good msgs ->
  Dict.get "timestamp" d = None ->
  exists w',
    on_trades_response E W response w = (Raise (KeyError "timestamp"), w') /\
    output w' = (output w ++ msgs)%list.
Proof.
  intros Hpop Hresponse Hall Hmissing.
  rewrite (on_trades_response_header _ _ _ _ Hpop Hresponse).
  destruct (on_trades_due trading_pair good msgs Hall w (PDict d :: later))
    as (w1 & Hout & _ & _ & ->).
  cbn [for_each]. unfold bind at 1, on_trade, bind, lift.
  cbn [subscript]. rewrite Hmissing. eauto.
Qed.

End Listeners.

(** An acknowledgement, a snapshot and an update arrive in this order. *)
Lemma order_book_stream_in_order_example :
  exists w',
    on_order_book_stream (sample_env sample_exchange) sample_ws
      [sample_ack; sample_book_message "snapshotOrderbook";
       sample_book_message "updateOrderbook"] sample_world = (Ok tt, w') /\
    map message_type (output w') = [SNAPSHOT; DIFF] /\
    requests w' = 0%nat.
Proof.
  destruct (order_book_stream_in_order (sample_env sample_exchange) sample_ws
              [sample_ack; sample_book_message "snapshotOrderbook";
               sample_book_message "updateOrderbook"]
              [[];
               [{| message_type := SNAPSHOT;
                   content := Dict.update sample_book_params
                                [("trading_pair", PStr "BTC-USDT")];
                   timestamp := PInt 1700000000 |}];
               [{| message_type := DIFF;
                   content := Dict.update sample_book_params
                                [("trading_pair", PStr "BTC-USDT")];
                   timestamp := PInt 1700000000 |}]]
              sample_world eq_refl)
    as (w' & Hrun & Hout & _ & Hreq).
  - repeat constructor.
    + eexists. split; [reflexivity|]. left. split; [reflexivity|].
      left. reflexivity.
    + eexists. split; [reflexivity|]. right.
      exists sample_book_params, (PStr "2023-11-14T22:13:20Z"),
        (PInt 1700000000), "BTCUSDT", "BTC-USDT".
      repeat split. left. reflexivity.
    + eexists. split; [reflexivity|]. right.
      exists sample_book_params, (PStr "2023-11-14T22:13:20Z"),
        (PInt 1700000000), "BTCUSDT", "BTC-USDT".
      repeat split. right. reflexivity.
  - exists w'. split; [exact Hrun|]. rewrite Hout, Hreq. split; reflexivity.
Defined.

Lemma sample_trades_response trades :
  trades_response sample_ws (symbol_map sample_world)
    (sample_trades_message trades) "BTC-USDT" trades.
Proof.
  exists [("method", PStr "updateTrades");
          ("params", PDict [("symbol", PStr "BTCUSDT"); ("data", PList trades)])],
    [("symbol", PStr "BTCUSDT"); ("data", PList trades)], "BTCUSDT".
  repeat split.
Defined.

Lemma sample_trade_due id :
  trade_due sample_ws "BTC-USDT" (PDict (sample_trade id))
    (trade_message_from_exchange (sample_trade id) (PInt 1700000000)
       (Some [("trading_pair", PStr "BTC-USDT")])).
Proof.
  exists (sample_trade id), (PStr "2023-11-14T22:13:20Z"), (PInt 1700000000).
  repeat split.
Defined.

(** Two trades in one message. *)
Lemma trades_response_pushes_all_example :
  exists w',
    on_trades_response (sample_env sample_exchange) sample_ws
      (sample_trades_message [PDict (sample_trade 41); PDict (sample_trade 42)])
      sample_world = (Ok tt, w') /\
    map (fun msg => py_get "exchange_order_id" (content msg)) (output w')
    = [PInt 41; PInt 42].
Proof.
  destruct (trades_response_pushes_all (sample_env sample_exchange) sample_ws
              _ "BTC-USDT" _ _ sample_world eq_refl
              (sample_trades_response
                 [PDict (sample_trade 41); PDict (sample_trade 42)])
              (Forall2_cons _ _ (sample_trade_due 41)
                 (Forall2_cons _ _ (sample_trade_due 42) (Forall2_nil _))))
    as (w' & Hrun & Hout & _).
  exists w'. split; [exact Hrun|]. rewrite Hout. reflexivity.
Defined.

(** The second of three trades has no timestamp. *)
Lemma trades_pushed_until_failure_example :
  exists w',
    on_trades_response (sample_env sample_exchange) sample_ws
      (sample_trades_message
         [PDict (sample_trade 41); PDict [("id", PInt 42)];
          PDict (sample_trade 43)])
      sample_world = (Raise (KeyError "timestamp"), w') /\
    map (fun msg => py_get "exchange_order_id" (content msg)) (output w')
    = [PInt 41].
Proof.
  destruct (trades_pushed_until_failure (sample_env sample_exchange) sample_ws
              _ "BTC-USDT" [PDict (sample_trade 41)] [("id", PInt 42)]
              [PDict (sample_trade 43)] _ sample_world eq_refl
              (sample_trades_response _)
              (Forall2_cons _ _ (sample_trade_due 41) (Forall2_nil _))
              eq_refl)
    as (w' & Hrun & Hout).
  exists w'. split; [exact Hrun|]. rewrite Hout. reflexivity.
Defined.
